(** * The check-in kiosk of app.py: model of the two tables and of the
      handlers, and the properties of the toggle.

    The SQLite file [bridge_troll.db] is modelled as a value of type
    [database]; every function of app.py that opens a connection becomes
    a function from the database before the call to the database after
    the commit.  The wall clock read by [datetime.now()] is an argument. *)

From Stdlib Require Import List String Ascii ZArith Arith Bool Lia Sorted.
Import ListNotations.

Local Open Scope string_scope.
Local Open Scope list_scope.

(** ** Python strings *)

(** A [str] is a [string]; a character stands for the code point of the
    same number. *)
Module PyStr.

(** [str.isspace] on one character, for the code points below 256:
    TAB..CR, FS..US, SPACE, NEL and NBSP. *)
Definition isspace (c : ascii) : bool :=
  let n := nat_of_ascii c in
  (Nat.leb 9 n && Nat.leb n 13) || (Nat.leb 28 n && Nat.leb n 32)
  || Nat.eqb n 133 || Nat.eqb n 160.

Fixpoint lstrip (s : string) : string :=
  match s with
  | EmptyString => EmptyString
  | String c s' => if isspace c then lstrip s' else s
  end.

Fixpoint rstrip (s : string) : string :=
  match s with
  | EmptyString => EmptyString
  | String c s' =>
      match rstrip s' with
      | EmptyString => if isspace c then EmptyString else String c EmptyString
      | r => String c r
      end
  end.

(** [s.strip()] *)
Definition strip (s : string) : string := rstrip (lstrip s).

End PyStr.

(** ** datetime *)

Module Datetime.

(** A naive [datetime]; the class keeps every field in its calendar
    range (year 1..9999, month 1..12, ..., second 0..59). *)
Record datetime : Set := mk_datetime {
  year : nat; month : nat; day : nat;
  hour : nat; minute : nat; second : nat;
  microsecond : nat
}.

Definition digit (n : nat) : ascii := ascii_of_nat (48 + n mod 10).

(** ["%02d"] on a field below 100. *)
Definition pad2 (n : nat) : string :=
  String (digit (n / 10)) (String (digit n) EmptyString).

(** ["%04d"] on a field below 10000. *)
Definition pad4 (n : nat) : string :=
  String (digit (n / 1000)) (String (digit (n / 100))
    (String (digit (n / 10)) (String (digit n) EmptyString))).

(** [d.isoformat(timespec="seconds")] of a naive datetime: the
    microseconds are dropped and there is no offset. *)
Definition isoformat_seconds (d : datetime) : string :=
  pad4 (year d) ++ "-" ++ pad2 (month d) ++ "-" ++ pad2 (day d) ++ "T"
  ++ pad2 (hour d) ++ ":" ++ pad2 (minute d) ++ ":" ++ pad2 (second d).

End Datetime.
Export Datetime.

(** ** The two tables *)

(** [students(student_id TEXT PRIMARY KEY, first_name, last_name,
    waiver_signed)]; the only writer binds four Python strings. *)
Module students.
Record row : Set := mk_row {
  student_id : string;
  first_name : string;
  last_name : string;
  waiver_signed : string
}.
End students.

(** [logins(id INTEGER PRIMARY KEY AUTOINCREMENT, student_id, login_time,
    logout_time)]; [logout_time] is NULL while the session is open. *)
Module logins.
Record row : Set := mk_row {
  id : Z;
  student_id : string;
  login_time : string;
  logout_time : option string
}.
End logins.

(** The database file: the rows of each table in rowid order, and the
    entry of [sqlite_sequence] for [logins] (the largest id AUTOINCREMENT
    has handed out, 0 before the first insert). *)
Record database : Set := mk_database {
  students_table : list students.row;
  logins_table : list logins.row;
  logins_seq : Z
}.

(** ** SQL statements of app.py *)

Module Sql.

(** A bound parameter: [None] is Python's [None], bound as NULL. *)
Definition param := option string.

(** [column = ?] in a WHERE clause; a comparison with NULL is NULL. *)
Definition eq_text (column : string) (p : param) : option bool :=
  match p with
  | None => None
  | Some v => Some (String.eqb column v)
  end.

(** A row is selected when its WHERE clause is true (neither false
    nor NULL). *)
Definition is_true (v : option bool) : bool :=
  match v with Some true => true | _ => false end.

Definition is_null {A : Type} (v : option A) : bool :=
  match v with None => true | Some _ => false end.

(** [SELECT first_name, last_name, waiver_signed FROM students
     WHERE student_id = ?] followed by [fetchone()]. *)
Definition select_student (p : param) (t : list students.row)
  : option (string * string * string) :=
  match find (fun r => is_true (eq_text (students.student_id r) p)) t with
  | None => None
  | Some r => Some (students.first_name r, students.last_name r,
                    students.waiver_signed r)
  end.

(** [WHERE student_id = ? AND logout_time IS NULL] on [logins]. *)
Definition open_for (p : param) (r : logins.row) : bool :=
  is_true (eq_text (logins.student_id r) p)
  && is_null (logins.logout_time r).

(** [ORDER BY id DESC LIMIT 1] on a column of ids. *)
Fixpoint largest (ids : list Z) : option Z :=
  match ids with
  | [] => None
  | i :: rest =>
      match largest rest with
      | None => Some i
      | Some m => Some (Z.max i m)
      end
  end.

(** [SELECT id FROM logins WHERE student_id = ? AND logout_time IS NULL
     ORDER BY id DESC LIMIT 1] followed by [fetchone()]. *)
Definition select_active_session (p : param) (t : list logins.row)
  : option Z :=
  largest (map logins.id (filter (open_for p) t)).

Definition set_logout (time : string) (r : logins.row) : logins.row :=
  logins.mk_row (logins.id r) (logins.student_id r) (logins.login_time r)
                (Some time).

(** [UPDATE logins SET logout_time = ? WHERE id = ?] *)
Definition update_logout (time : string) (session : Z)
  (t : list logins.row) : list logins.row :=
  map (fun r => if Z.eqb (logins.id r) session
                then set_logout time r else r) t.

(** The id AUTOINCREMENT gives the next row: one more than the largest
    id the table holds or has ever held. *)
Definition next_id (t : list logins.row) (seq : Z) : Z :=
  match largest (map logins.id t) with
  | None => seq + 1
  | Some m => Z.max m seq + 1
  end.

(** [INSERT INTO logins (student_id, login_time) VALUES (?, ?)]:
    [None] when the NOT NULL constraint on [student_id] fails. *)
Definition insert_login (p : param) (time : string) (db : database)
  : option database :=
  match p with
  | None => None
  | Some sid =>
      let i := next_id (logins_table db) (logins_seq db) in
      Some (mk_database (students_table db)
              (logins_table db ++ [logins.mk_row i sid time None])
              i)
  end.

(** [INSERT OR IGNORE INTO students (...) VALUES (?, ?, ?, ?)]: the row
    is dropped when its primary key is already in the table. *)
Definition insert_or_ignore_student (r : students.row)
  (t : list students.row) : list students.row :=
  if existsb (fun r' => String.eqb (students.student_id r')
                                   (students.student_id r)) t
  then t else t ++ [r].

End Sql.

(** ** The functions of app.py *)

Definition empty_database : database := mk_database [] [] 0.

(** [initialize_database()]: both CREATE TABLE IF NOT EXISTS statements;
    [None] is a file that holds no table yet. *)
Definition initialize_database (file : option database) : database :=
  match file with
  | None => empty_database
  | Some db => db
  end.

(** What [csv.reader] yields: one list of fields per record. *)
Definition csv_row := list string.

(** The body of the [for row in reader] loop: the four fields are read
    (an IndexError gives [None]), stripped and inserted. *)
Definition import_row (row : csv_row) (t : list students.row)
  : option (list students.row) :=
  match nth_error row 0, nth_error row 1, nth_error row 3, nth_error row 10 with
  | Some c0, Some c1, Some c3, Some c10 =>
      let last_name := PyStr.strip c0 in
      let first_name := PyStr.strip c1 in
      let student_id := PyStr.strip c3 in
      let waiver_signed := PyStr.strip c10 in
      Some (Sql.insert_or_ignore_student
              (students.mk_row student_id first_name last_name waiver_signed) t)
  | _, _, _, _ => None
  end.

Fixpoint import_rows (rows : list csv_row) (t : list students.row)
  : option (list students.row) :=
  match rows with
  | [] => Some t
  | row :: rest =>
      match import_row row t with
      | None => None
      | Some t' => import_rows rest t'
      end
  end.

(** [import_csv()]: the file at [CSV_Path] is [None] when it cannot be
    opened or read to its end ([open], the decoding or [csv.reader]
    raises), else the records [csv.reader] yields.  The result is [None]
    when an exception leaves the function before the commit, and the
    database file is then as it was. *)
Definition import_csv (file : option (list csv_row)) (db : database)
  : option database :=
  match file with
  | None => None
  | Some [] => None
  | Some (header :: rows) =>
      match import_rows rows (students_table db) with
      | None => None
      | Some t => Some (mk_database t (logins_table db) (logins_seq db))
      end
  end.

(** [record_login(student_id)]: the new database and the returned time. *)
Definition record_login (student_id : Sql.param) (now : datetime)
  (db : database) : option (database * string) :=
  let login_time := isoformat_seconds now in
  match Sql.insert_login student_id login_time db with
  | None => None
  | Some db' => Some (db', login_time)
  end.

(** [UPDATE logins SET logout_time = ? WHERE student_id = ? AND
    logout_time IS NULL ORDER BY id DESC LIMIT 1] of [record_logout]: of
    the student's open rows, the first in descending id order is
    updated (the statement needs a SQLite built with LIMIT on UPDATE;
    no handler calls this function). *)
Fixpoint update_first (f : logins.row -> bool) (g : logins.row -> logins.row)
  (t : list logins.row) : list logins.row :=
  match t with
  | [] => []
  | r :: rest => if f r then g r :: rest else r :: update_first f g rest
  end.

Definition update_latest_open (time : string) (p : Sql.param)
  (t : list logins.row) : list logins.row :=
  match Sql.select_active_session p t with
  | None => t
  | Some i =>
      update_first (fun r => Sql.open_for p r && Z.eqb (logins.id r) i)
                   (Sql.set_logout time) t
  end.

(** [record_logout(student_id)] *)
Definition record_logout (student_id : Sql.param) (now : datetime)
  (db : database) : database * string :=
  let logout_time := isoformat_seconds now in
  (mk_database (students_table db)
     (update_latest_open logout_time student_id (logins_table db))
     (logins_seq db),
   logout_time).

(** What the view returns: a dict, sent as a JSON object, or an
    exception that leaves the view (the request fails). *)
Inductive reply : Set :=
| Json (body : list (string * string))
| Raised (exception : string).

Definition message (text : string) : reply := Json [("message", text)].

(** The waiver roadblock:
    [waiver_signed.strip() == "" or waiver_signed == "0"]. *)
Definition waiver_blocks (waiver_signed : string) : bool :=
  String.eqb (PyStr.strip waiver_signed) "" || String.eqb waiver_signed "0".

(** [checkin()]: [student_id] is [request.form.get("student_id")], [None]
    when the form has no such field.  The result is the database after
    the request and the reply. *)
Definition checkin (student_id : option string) (now : datetime)
  (db : database) : database * reply :=
  match Sql.select_student student_id (students_table db) with
  | None => (db, message "Student ID not found")
  | Some (first_name, last_name, waiver_signed) =>
      if waiver_blocks waiver_signed then
        (db, message (first_name ++ " " ++ last_name
                      ++ " cannot check in - liability waiver"))
      else
        match Sql.select_active_session student_id (logins_table db) with
        | Some active_session =>
            let logout_time := isoformat_seconds now in
            (mk_database (students_table db)
               (Sql.update_logout logout_time active_session (logins_table db))
               (logins_seq db),
             message (first_name ++ " " ++ last_name ++ " checked OUT at "
                      ++ logout_time))
        | None =>
            let login_time := isoformat_seconds now in
            match Sql.insert_login student_id login_time db with
            | None => (db, Raised "sqlite3.IntegrityError")
            | Some db' =>
                (db', message (first_name ++ " " ++ last_name
                               ++ " checked IN at " ++ login_time))
            end
        end
  end.

(** A run of the server: the requests are handled one after the other,
    each with the form field it carries and the time it is served at. *)
Fixpoint serve (requests : list (option string * datetime)) (db : database)
  : database * list reply :=
  match requests with
  | [] => (db, [])
  | (student_id, now) :: rest =>
      let (db1, r) := checkin student_id now db in
      let (db2, rs) := serve rest db1 in
      (db2, r :: rs)
  end.

(** ** Predicates on a database *)

(** The PRIMARY KEY constraints the schema enforces. *)
Definition students_key (db : database) : Prop :=
  NoDup (map students.student_id (students_table db)).

Definition logins_key (db : database) : Prop :=
  NoDup (map logins.id (logins_table db)).

(** The sessions of a student, and those still open. *)
Definition sessions_of (sid : string) (t : list logins.row) : list logins.row :=
  filter (fun r => String.eqb (logins.student_id r) sid) t.

Definition open_sessions (sid : string) (t : list logins.row)
  : list logins.row :=
  filter (Sql.open_for (Some sid)) t.

(** The invariant of the data model: no student has two open sessions. *)
Definition at_most_one_open (db : database) : Prop :=
  forall sid, (List.length (open_sessions sid (logins_table db)) <= 1)%nat.

(** The databases the program can produce: a fresh file, the roster
    import at a start of the process, and the requests served. *)
Inductive reachable : database -> Prop :=
| reach_fresh : reachable (initialize_database None)
| reach_import : forall db file db',
    reachable db -> import_csv file db = Some db' -> reachable db'
| reach_checkin : forall db student_id now,
    reachable db -> reachable (fst (checkin student_id now db)).

(** What [import_csv] writes: every waiver flag is its own [strip()]. *)
Definition flags_stripped (t : list students.row) : Prop :=
  Forall (fun r => PyStr.strip (students.waiver_signed r)
                   = students.waiver_signed r) t.

(** The waiver flag as the data model words it: unsigned is the empty
    string or ["0"]. *)
Definition signed_as_specified (waiver_signed : string) : Prop :=
  waiver_signed <> "" /\ waiver_signed <> "0".

(** A request for the student of row [r] checks the student in: one row
    is appended to [logins], with a fresh id, the time of the request as
    login time and no logout time, and the reply gives that time. *)
Definition checks_in (r : students.row) (now : datetime) (db : database)
  : Prop :=
  exists i,
    (forall l, In l (logins_table db) -> (logins.id l < i)%Z) /\
    checkin (Some (students.student_id r)) now db
    = (mk_database (students_table db)
         (logins_table db
          ++ [logins.mk_row i (students.student_id r)
                (isoformat_seconds now) None])
         i,
       message (students.first_name r ++ " " ++ students.last_name r
                ++ " checked IN at " ++ isoformat_seconds now)).

(** [n] requests of one student, served at the given times. *)
Definition requests_of (sid : string) (times : list datetime)
  : list (option string * datetime) :=
  map (fun now => (Some sid, now)) times.

Definition ceil_half (n : nat) : nat := ((n + 1) / 2)%nat.

(** *** A small roster and two instants, for the examples *)

Definition alice := students.mk_row "12345" "Alice" "Smith" "1".
Definition bob := students.mk_row "7" "Bob" "Jones" " ".
Definition carol := students.mk_row "8" "Carol" "Diaz" "0".
Definition dan := students.mk_row "9" "Dan" "Eck" "".

Definition roster_db : database := mk_database [alice; bob; carol; dan] [] 0.

Definition roster_csv : list csv_row :=
  [ ["Last"; "First"; "Email"; "ID"; "c4"; "c5"; "c6"; "c7"; "c8"; "c9"; "Waiver"];
    ["Smith"; " Alice"; "a@x"; "12345 "; ""; ""; ""; ""; ""; ""; "1"];
    ["Diaz"; "Carol"; "c@x"; "8"; ""; ""; ""; ""; ""; ""; " 0"];
    ["Smith"; "Alicia"; "a2@x"; "12345"; ""; ""; ""; ""; ""; ""; ""] ].

(** The students table the import of [roster_csv] gives a fresh file. *)
Definition imported_db : database := mk_database [alice; carol] [] 0.

Definition morning := mk_datetime 2026 1 22 14 39 36 2500.
Definition noon := mk_datetime 2026 1 22 15 0 5 0.

(** Alice is in, session 1 of another student is closed. *)
Definition busy_db : database :=
  mk_database [alice; bob; carol; dan]
    [ logins.mk_row 1 "8" "2026-01-21T09:00:00" (Some "2026-01-21T10:00:00");
      logins.mk_row 2 "12345" "2026-01-22T14:39:36" None ]
    2.

(** *** Further notions, for the properties beyond the handler *)

(** The student a record of the file describes: the four fields the loop
    of [import_csv] reads, stripped; [None] when the record is too short
    for one of them. *)
Definition row_student (row : csv_row) : option students.row :=
  match nth_error row 0, nth_error row 1, nth_error row 3, nth_error row 10 with
  | Some c0, Some c1, Some c3, Some c10 =>
      Some (students.mk_row (PyStr.strip c3) (PyStr.strip c1)
              (PyStr.strip c0) (PyStr.strip c10))
  | _, _, _, _ => None
  end.

Definition student_ids (t : list students.row) : list string :=
  map students.student_id t.

(** A string made of whitespace only (the empty string included). *)
Fixpoint all_space (s : string) : bool :=
  match s with
  | EmptyString => true
  | String c s' => PyStr.isspace c && all_space s'
  end.

(** The columns of a login record no statement of app.py rewrites. *)
Definition session_core (l : logins.row) : Z * string * string :=
  (logins.id l, logins.student_id l, logins.login_time l).

(** The FOREIGN KEY of [logins], which SQLite does not enforce unless
    asked to: every login record names a student of the table. *)
Definition logins_reference_students (db : database) : Prop :=
  forall l, In l (logins_table db) ->
            In (logins.student_id l) (student_ids (students_table db)).

(** The ids of [logins] grow along the table and stay within what
    AUTOINCREMENT has handed out. *)
Definition ids_increasing (db : database) : Prop :=
  StronglySorted Z.lt (map logins.id (logins_table db))
  /\ Forall (fun i => (0 < i <= logins_seq db)%Z)
            (map logins.id (logins_table db)).

(** The fields of a datetime in the ranges the class allows. *)
Definition in_range (d : datetime) : Prop :=
  (year d < 100 * 100 /\ month d < 100 /\ day d < 100
   /\ hour d < 100 /\ minute d < 100 /\ second d < 100)%nat.

(** The block under [if __name__ == "__main__"]: the tables are created,
    the roster is imported and the server handles the requests it gets.
    [None] when the import raises, before any request is served. *)
Definition main (db_file : option database) (csv_file : option (list csv_row))
  (requests : list (option string * datetime))
  : option (database * list reply) :=
  match import_csv csv_file (initialize_database db_file) with
  | None => None
  | Some db => Some (serve requests db)
  end.

(** Some more records for the examples. *)
Definition short_csv : list csv_row :=
  [ ["Last"; "First"]; ["Smith"; "Alice"; "a@x"; "12345"] ].

(** Bob as [update_csv] has him. *)
Definition bob_signed := students.mk_row "7" "Bob" "Jones" "yes".

Definition update_csv : list csv_row :=
  [ [];
    ["Smyth"; "Alice"; "a@x"; "12345"; ""; ""; ""; ""; ""; ""; "0"];
    ["Jones"; "Bob"; "b@x"; "7"; ""; ""; ""; ""; ""; ""; "yes "] ].

(** Closes a [NoDup] goal on a list of literals. *)
Ltac key_tac :=
  repeat (constructor; [simpl; intuition (try discriminate)|]); constructor.

(** ** Lemmas on the SQL statements *)

Section SqlFacts.

Lemma largest_None (ids : list Z) : Sql.largest ids = None -> ids = [].
Proof.
  destruct ids as [|i rest]; simpl; [reflexivity|].
  destruct (Sql.largest rest); discriminate.
Qed.

Lemma largest_Some (ids : list Z) (m : Z) :
  Sql.largest ids = Some m ->
  In m ids /\ (forall i, In i ids -> (i <= m)%Z).
Proof.
  revert m; induction ids as [|i rest IH]; simpl; intros m H; [discriminate|].
  destruct (Sql.largest rest) as [m'|] eqn:E.
  - injection H as <-. destruct (IH m' eq_refl) as [Hin Hle]. split.
    + destruct (Z.max_spec i m') as [[_ ->]|[_ ->]]; auto.
    + intros j [<-|Hj]; [lia|]. specialize (Hle j Hj). lia.
  - injection H as <-. apply largest_None in E. subst rest. split; [auto|].
    intros j [<-|[]]. lia.
Qed.

Lemma is_true_eq_text (col : string) (p : Sql.param) :
  Sql.is_true (Sql.eq_text col p) = true <-> p = Some col.
Proof.
  destruct p as [v|]; simpl; [|split; discriminate].
  destruct (String.eqb col v) eqn:E.
  - apply String.eqb_eq in E. subst. tauto.
  - apply String.eqb_neq in E. split; [discriminate|].
    intros [= ->]. contradiction.
Qed.

Lemma select_student_Some p t first last waiver :
  Sql.select_student p t = Some (first, last, waiver) ->
  exists r, In r t /\ p = Some (students.student_id r)
            /\ students.first_name r = first
            /\ students.last_name r = last
            /\ students.waiver_signed r = waiver.
Proof.
  unfold Sql.select_student.
  destruct (find _ t) as [r|] eqn:E; [|discriminate].
  intros [= <- <- <-]. apply find_some in E. destruct E as [Hin Ht].
  apply is_true_eq_text in Ht. exists r. auto.
Qed.

Lemma select_student_None p t :
  (forall r, In r t -> p <> Some (students.student_id r)) ->
  Sql.select_student p t = None.
Proof.
  intros H. unfold Sql.select_student.
  destruct (find _ t) as [r|] eqn:E; [|reflexivity].
  apply find_some in E. destruct E as [Hin Ht].
  apply is_true_eq_text in Ht. elim (H r Hin Ht).
Qed.

Lemma select_student_In t r :
  NoDup (map students.student_id t) -> In r t ->
  Sql.select_student (Some (students.student_id r)) t
  = Some (students.first_name r, students.last_name r,
          students.waiver_signed r).
Proof.
  unfold Sql.select_student.
  induction t as [|r0 t IH]; simpl; intros Hnd Hin; [contradiction|].
  inversion Hnd as [|? ? Hnotin Hnd']; subst.
  destruct (String.eqb (students.student_id r0) (students.student_id r)) eqn:E.
  - destruct Hin as [->|Hin]; [reflexivity|].
    apply String.eqb_eq in E. exfalso. apply Hnotin. rewrite E.
    now apply in_map.
  - destruct Hin as [->|Hin].
    + now rewrite String.eqb_refl in E.
    + now apply IH.
Qed.

Lemma open_for_spec p r :
  Sql.open_for p r = true <->
  p = Some (logins.student_id r) /\ logins.logout_time r = None.
Proof.
  unfold Sql.open_for. rewrite andb_true_iff, is_true_eq_text.
  destruct (logins.logout_time r); simpl; intuition congruence.
Qed.

Lemma open_for_set_logout p time r :
  Sql.open_for p (Sql.set_logout time r) = false.
Proof. unfold Sql.open_for. simpl. apply andb_false_r. Qed.

Lemma filter_andb {A} (f g : A -> bool) (l : list A) :
  filter (fun x => f x && g x) l = filter g (filter f l).
Proof.
  induction l as [|x l IH]; simpl; [reflexivity|].
  destruct (f x); simpl; [destruct (g x)|]; now rewrite IH.
Qed.

(** The open rows after closing session [i] are the open rows with
    another id. *)
Lemma open_after_update p time i t :
  filter (Sql.open_for p) (Sql.update_logout time i t)
  = filter (fun r => negb (Z.eqb (logins.id r) i)) (filter (Sql.open_for p) t).
Proof.
  rewrite <- filter_andb. unfold Sql.update_logout.
  induction t as [|r t IH]; simpl; [reflexivity|].
  destruct (Z.eqb (logins.id r) i).
  - rewrite open_for_set_logout, andb_false_r. exact IH.
  - rewrite andb_true_r. destruct (Sql.open_for p r); now rewrite IH.
Qed.

Lemma filter_length_le {A} (f : A -> bool) (l : list A) :
  (List.length (filter f l) <= List.length l)%nat.
Proof.
  induction l as [|x l IH]; simpl; [lia|]. destruct (f x); simpl; lia.
Qed.

Lemma sessions_after_update sid time i t :
  sessions_of sid (Sql.update_logout time i t)
  = Sql.update_logout time i (sessions_of sid t).
Proof.
  unfold sessions_of, Sql.update_logout.
  induction t as [|r t IH]; simpl; [reflexivity|].
  destruct (Z.eqb (logins.id r) i) eqn:E; simpl;
    destruct (String.eqb (logins.student_id r) sid); simpl;
    rewrite ?E, IH; reflexivity.
Qed.

Lemma update_logout_length time i t :
  List.length (Sql.update_logout time i t) = List.length t.
Proof. apply length_map. Qed.

Lemma select_active_session_None p t :
  Sql.select_active_session p t = None <-> filter (Sql.open_for p) t = [].
Proof.
  unfold Sql.select_active_session. split; intros H.
  - apply largest_None in H. now apply map_eq_nil in H.
  - now rewrite H.
Qed.

Lemma select_active_session_Some p t i :
  Sql.select_active_session p t = Some i ->
  (exists r, In r t /\ Sql.open_for p r = true /\ logins.id r = i)
  /\ (forall r, In r t -> Sql.open_for p r = true -> (logins.id r <= i)%Z).
Proof.
  unfold Sql.select_active_session. intros H.
  apply largest_Some in H. destruct H as [Hin Hmax]. split.
  - apply in_map_iff in Hin. destruct Hin as [r [Hid Hr]].
    apply filter_In in Hr. exists r. tauto.
  - intros r Hr Ho. apply Hmax. apply in_map. apply filter_In. auto.
Qed.

End SqlFacts.

(** ** Lemmas on the handler *)

Section CheckinFacts.

Lemma waiver_blocks_false w :
  waiver_blocks w = false <-> PyStr.strip w <> "" /\ w <> "0".
Proof.
  unfold waiver_blocks. rewrite orb_false_iff, !String.eqb_neq. tauto.
Qed.

Lemma waiver_blocks_unsigned w : w = "" \/ w = "0" -> waiver_blocks w = true.
Proof. intros [->| ->]; reflexivity. Qed.

(** The handler on a student of the table, once the lookup is done. *)
Lemma checkin_found db r now :
  students_key db -> In r (students_table db) ->
  checkin (Some (students.student_id r)) now db
  = if waiver_blocks (students.waiver_signed r) then
      (db, message (students.first_name r ++ " " ++ students.last_name r
                    ++ " cannot check in - liability waiver"))
    else
      match Sql.select_active_session (Some (students.student_id r))
              (logins_table db) with
      | Some i =>
          (mk_database (students_table db)
             (Sql.update_logout (isoformat_seconds now) i (logins_table db))
             (logins_seq db),
           message (students.first_name r ++ " " ++ students.last_name r
                    ++ " checked OUT at " ++ isoformat_seconds now))
      | None =>
          (mk_database (students_table db)
             (logins_table db
              ++ [logins.mk_row
                    (Sql.next_id (logins_table db) (logins_seq db))
                    (students.student_id r) (isoformat_seconds now) None])
             (Sql.next_id (logins_table db) (logins_seq db)),
           message (students.first_name r ++ " " ++ students.last_name r
                    ++ " checked IN at " ++ isoformat_seconds now))
      end.
Proof.
  intros Hk Hin. unfold checkin.
  rewrite (select_student_In _ _ Hk Hin). reflexivity.
Qed.

(** The INSERT of the handler never meets a NULL student_id: the
    lookup has matched the parameter before. *)
Lemma checkin_never_raises student_id now db e :
  snd (checkin student_id now db) <> Raised e.
Proof.
  unfold checkin.
  destruct (Sql.select_student _ _) as [[[f l] w]|] eqn:E; [|discriminate].
  apply select_student_Some in E. destruct E as [r [_ [-> _]]].
  destruct (waiver_blocks w); [discriminate|].
  destruct (Sql.select_active_session _ _); discriminate.
Qed.

Lemma checkin_students student_id now db :
  students_table (fst (checkin student_id now db)) = students_table db.
Proof.
  unfold checkin.
  destruct (Sql.select_student _ _) as [[[f l] w]|]; [|reflexivity].
  destruct (waiver_blocks w); [reflexivity|].
  destruct (Sql.select_active_session _ _); [reflexivity|].
  destruct student_id; reflexivity.
Qed.

Lemma next_id_fresh t seq l :
  In l t -> (logins.id l < Sql.next_id t seq)%Z.
Proof.
  intros Hin. unfold Sql.next_id.
  destruct (Sql.largest (map logins.id t)) as [m|] eqn:E.
  - apply largest_Some in E. destruct E as [_ Hmax].
    specialize (Hmax _ (in_map logins.id _ _ Hin)). lia.
  - apply largest_None in E. apply map_eq_nil in E. subst. contradiction.
Qed.

(** The check-in branch of the handler. *)
Lemma checkin_checks_in db r now :
  students_key db -> In r (students_table db) ->
  waiver_blocks (students.waiver_signed r) = false ->
  open_sessions (students.student_id r) (logins_table db) = [] ->
  checks_in r now db.
Proof.
  intros Hk Hin Hw Hopen.
  exists (Sql.next_id (logins_table db) (logins_seq db)). split.
  - intros l. apply next_id_fresh.
  - rewrite (checkin_found _ _ _ Hk Hin), Hw.
    now rewrite (proj2 (select_active_session_None _ _) Hopen).
Qed.

End CheckinFacts.

(** ** The properties of the check-in handler *)

(** C10: a POST to /checkin whose form has no [student_id] field (the
    lookup [request.form.get] yields [None]) is answered like an unknown
    identifier, with the body [{"message": "Student ID not found"}];
    the database is unchanged and the request does not fail. *)
Theorem checkin_missing_field_not_found (now : datetime) (db : database) :
  checkin None now db = (db, Json [("message", "Student ID not found")]).
Proof.
  unfold checkin. rewrite select_student_None; [reflexivity|].
  intros r _. discriminate.
Qed.

(** C5: for an identifier that matches no row of the students table, the
    reply to /checkin is exactly [{"message": "Student ID not found"}]
    and neither table changes. *)
Theorem checkin_unknown_id_not_found
  (student_id : option string) (now : datetime) (db : database) :
  (forall r, In r (students_table db) ->
             student_id <> Some (students.student_id r)) ->
  checkin student_id now db
  = (db, Json [("message", "Student ID not found")]).
Proof.
  intros H. unfold checkin. now rewrite (select_student_None _ _ H).
Qed.

Lemma checkin_unknown_id_not_found_witness :
  checkin (Some "99999") morning busy_db
  = (busy_db, Json [("message", "Student ID not found")]).
Proof.
  apply (checkin_unknown_id_not_found (Some "99999") morning busy_db).
  simpl. intros r H. intuition (subst; discriminate).
Defined.

(** C4: for a student of the table whose waiver flag is the empty string
    or the literal "0", the reply to /checkin is the waiver-block message
    "<first> <last> cannot check in - liability waiver", no login record
    is created and the whole database is unchanged. *)
Theorem checkin_unsigned_waiver_blocked
  (db : database) (r : students.row) (now : datetime) :
  students_key db -> In r (students_table db) ->
  students.waiver_signed r = "" \/ students.waiver_signed r = "0" ->
  checkin (Some (students.student_id r)) now db
  = (db, message (students.first_name r ++ " " ++ students.last_name r
                  ++ " cannot check in - liability waiver")).
Proof.
  intros Hk Hin Hw. rewrite (checkin_found _ _ _ Hk Hin).
  now rewrite (waiver_blocks_unsigned _ Hw).
Qed.

Lemma checkin_unsigned_waiver_blocked_witness :
  checkin (Some "8") noon busy_db
  = (busy_db,
     Json [("message", "Carol Diaz cannot check in - liability waiver")])
  /\ checkin (Some "9") noon busy_db
     = (busy_db,
        Json [("message", "Dan Eck cannot check in - liability waiver")]).
Proof.
  split.
  - apply (checkin_unsigned_waiver_blocked busy_db carol noon).
    + unfold students_key. simpl. key_tac.
    + simpl. tauto.
    + right. reflexivity.
  - apply (checkin_unsigned_waiver_blocked busy_db dan noon).
    + unfold students_key. simpl. key_tac.
    + simpl. tauto.
    + left. reflexivity.
Defined.

(** C9: a /checkin request leaves every row of the students table as it
    was; request handling writes the logins table only.  The same holds
    after any number of requests. *)
Theorem checkin_keeps_students :
  (forall student_id now db,
     students_table (fst (checkin student_id now db)) = students_table db)
  /\ (forall requests db,
        students_table (fst (serve requests db)) = students_table db).
Proof.
  split; [exact checkin_students|].
  induction requests as [|[sid now] rest IH]; intros db; simpl; [reflexivity|].
  destruct (checkin sid now db) as [db1 rep] eqn:E1.
  specialize (IH db1). destruct (serve rest db1) as [db2 reps]. simpl in *.
  rewrite IH. change db1 with (fst (db1, rep)). rewrite <- E1.
  apply checkin_students.
Qed.

Section CloseFacts.

Lemma update_logout_other time i t :
  (forall r, In r t -> logins.id r <> i) -> Sql.update_logout time i t = t.
Proof.
  unfold Sql.update_logout. induction t as [|r t IH]; simpl; intros H;
    [reflexivity|].
  destruct (Z.eqb_spec (logins.id r) i) as [E|E].
  - elim (H r (or_introl eq_refl) E).
  - f_equal. apply IH. intros r' Hr'. apply H. now right.
Qed.

(** Under the primary key, the UPDATE by id rewrites one row. *)
Lemma update_logout_split time before s after :
  NoDup (map logins.id (before ++ s :: after)) ->
  Sql.update_logout time (logins.id s) (before ++ s :: after)
  = before ++ Sql.set_logout time s :: after.
Proof.
  intros Hnd. rewrite map_app in Hnd. simpl in Hnd.
  pose proof (NoDup_remove_2 _ _ _ Hnd) as Hnotin.
  unfold Sql.update_logout. rewrite map_app. simpl.
  rewrite Z.eqb_refl.
  fold (Sql.update_logout time (logins.id s) before).
  fold (Sql.update_logout time (logins.id s) after).
  rewrite !update_logout_other; [reflexivity| |];
    intros r Hr E; apply Hnotin; rewrite <- E; apply in_or_app;
    [right|left]; now apply in_map.
Qed.

End CloseFacts.

(** C3: for a student of the table who passes the waiver gate and has at
    least one open session, one /checkin request sets the logout time of
    exactly one row, the student's open session of highest id, to the
    time of the request; no row is inserted and the reply is
    "<first> <last> checked OUT at <time>" with that stored time. *)
Theorem checkin_closes_latest_open_session
  (db : database) (r : students.row) (now : datetime) :
  students_key db -> logins_key db -> In r (students_table db) ->
  waiver_blocks (students.waiver_signed r) = false ->
  open_sessions (students.student_id r) (logins_table db) <> [] ->
  exists before s after,
    logins_table db = before ++ s :: after
    /\ In s (open_sessions (students.student_id r) (logins_table db))
    /\ (forall s', In s' (open_sessions (students.student_id r)
                            (logins_table db)) ->
                   (logins.id s' <= logins.id s)%Z)
    /\ checkin (Some (students.student_id r)) now db
       = (mk_database (students_table db)
            (before
             ++ logins.mk_row (logins.id s) (logins.student_id s)
                  (logins.login_time s) (Some (isoformat_seconds now))
             :: after)
            (logins_seq db),
          message (students.first_name r ++ " " ++ students.last_name r
                   ++ " checked OUT at " ++ isoformat_seconds now)).
Proof.
  intros Hk Hl Hin Hw Hopen.
  rewrite (checkin_found _ _ _ Hk Hin), Hw.
  destruct (Sql.select_active_session _ _) as [i|] eqn:E.
  - apply select_active_session_Some in E.
    destruct E as [[s [Hs [Ho Hi]]] Hmax].
    destruct (in_split _ _ Hs) as [before [after Hsplit]].
    exists before, s, after. split; [exact Hsplit|].
    split; [apply filter_In; auto|]. split.
    + intros s' Hs'. apply filter_In in Hs'. rewrite Hi. apply Hmax; tauto.
    + unfold logins_key in Hl. rewrite Hsplit in Hl |- *. subst i.
      now rewrite update_logout_split.
  - apply select_active_session_None in E. contradiction.
Qed.

Lemma checkin_closes_latest_open_session_witness :
  exists before s after,
    logins_table busy_db = before ++ s :: after
    /\ In s (open_sessions "12345" (logins_table busy_db))
    /\ (forall s', In s' (open_sessions "12345" (logins_table busy_db)) ->
                   (logins.id s' <= logins.id s)%Z)
    /\ checkin (Some "12345") noon busy_db
       = (mk_database (students_table busy_db)
            (before
             ++ logins.mk_row (logins.id s) (logins.student_id s)
                  (logins.login_time s) (Some "2026-01-22T15:00:05")
             :: after)
            (logins_seq busy_db),
          Json [("message", "Alice Smith checked OUT at 2026-01-22T15:00:05")]).
Proof.
  apply (checkin_closes_latest_open_session busy_db alice noon).
  - unfold students_key. simpl. key_tac.
  - unfold logins_key. simpl. key_tac.
  - simpl. tauto.
  - reflexivity.
  - vm_compute. discriminate.
Defined.

Section ToggleFacts.

(** What one request does to the logins table. *)
Lemma checkin_logins student_id now db :
  let t := logins_table db in
  let t' := logins_table (fst (checkin student_id now db)) in
  let time := isoformat_seconds now in
  t' = t
  \/ (exists sid i,
        student_id = Some sid
        /\ Sql.select_active_session (Some sid) t = Some i
        /\ t' = Sql.update_logout time i t)
  \/ (exists sid,
        student_id = Some sid
        /\ Sql.select_active_session (Some sid) t = None
        /\ t' = t ++ [logins.mk_row (Sql.next_id t (logins_seq db))
                        sid time None]).
Proof.
  unfold checkin.
  destruct (Sql.select_student _ _) as [[[f l] w]|] eqn:E; [|now left].
  apply select_student_Some in E. destruct E as [r [_ [-> _]]].
  destruct (waiver_blocks w); [now left|].
  destruct (Sql.select_active_session _ _) as [i|] eqn:Ea; right.
  - left. exists (students.student_id r), i. auto.
  - right. exists (students.student_id r). auto.
Qed.

Lemma open_sessions_update_le sid time i t :
  (List.length (open_sessions sid (Sql.update_logout time i t))
   <= List.length (open_sessions sid t))%nat.
Proof.
  unfold open_sessions. rewrite open_after_update. apply filter_length_le.
Qed.

Lemma open_sessions_insert sid sid' i time t :
  open_sessions sid' (t ++ [logins.mk_row i sid time None])
  = open_sessions sid' t
    ++ (if String.eqb sid sid' then [logins.mk_row i sid time None] else []).
Proof.
  unfold open_sessions. rewrite filter_app. simpl.
  unfold Sql.open_for. simpl. now destruct (String.eqb sid sid').
Qed.

Lemma checkin_at_most_one_open student_id now db :
  at_most_one_open db -> at_most_one_open (fst (checkin student_id now db)).
Proof.
  intros Hinv sid'. specialize (Hinv sid').
  destruct (checkin_logins student_id now db)
    as [-> | [(sid & i & _ & _ & ->) | (sid & _ & Hnone & ->)]].
  - exact Hinv.
  - etransitivity; [apply open_sessions_update_le | exact Hinv].
  - rewrite open_sessions_insert, length_app.
    destruct (String.eqb_spec sid sid') as [<-|_]; simpl; [|lia].
    apply select_active_session_None in Hnone.
    unfold open_sessions. rewrite Hnone. simpl. lia.
Qed.

Lemma import_csv_logins file db db' :
  import_csv file db = Some db' -> logins_table db' = logins_table db.
Proof.
  unfold import_csv. destruct file as [[|header rows]|]; try discriminate.
  destruct (import_rows rows (students_table db)); [|discriminate].
  now intros [= <-].
Qed.

Lemma reachable_at_most_one_open db :
  reachable db -> at_most_one_open db.
Proof.
  induction 1 as [|db file db' _ IH Himp|db sid now _ IH].
  - intros sid. simpl. lia.
  - intros sid. rewrite (import_csv_logins _ _ _ Himp). apply IH.
  - now apply checkin_at_most_one_open.
Qed.

End ToggleFacts.

(** C1: in every database the program reaches, requests being served one
    at a time, no student has more than one login record with a NULL
    logout time; and on any database with that property a /checkin
    request keeps it: the request closes an existing open session of the
    student, or opens one where the student had none, or leaves the
    logins table as it was. *)
Theorem checkin_preserves_single_open_session :
  (forall db, reachable db -> at_most_one_open db)
  /\ (forall student_id now db,
        at_most_one_open db ->
        at_most_one_open (fst (checkin student_id now db))
        /\ (logins_table (fst (checkin student_id now db)) = logins_table db
            \/ (exists sid s,
                  student_id = Some sid
                  /\ In s (open_sessions sid (logins_table db))
                  /\ logins_table (fst (checkin student_id now db))
                     = Sql.update_logout (isoformat_seconds now)
                         (logins.id s) (logins_table db))
            \/ (exists sid i,
                  student_id = Some sid
                  /\ open_sessions sid (logins_table db) = []
                  /\ logins_table (fst (checkin student_id now db))
                     = logins_table db
                       ++ [logins.mk_row i sid (isoformat_seconds now) None]))).
Proof.
  split; [exact reachable_at_most_one_open|].
  intros student_id now db Hinv. split.
  - now apply checkin_at_most_one_open.
  - destruct (checkin_logins student_id now db)
      as [H | [(sid & i & Hp & Ha & H) | (sid & Hp & Hnone & H)]].
    + now left.
    + right; left. apply select_active_session_Some in Ha.
      destruct Ha as [[s [Hs [Ho Hi]]] _]. exists sid, s. subst i.
      repeat split; auto. apply filter_In. auto.
    + right; right. apply select_active_session_None in Hnone.
      exists sid, (Sql.next_id (logins_table db) (logins_seq db)). auto.
Qed.

Lemma checkin_preserves_single_open_session_witness :
  at_most_one_open (fst (checkin (Some "12345") morning imported_db))
  /\ at_most_one_open
       (fst (checkin (Some "12345") noon
               (fst (checkin (Some "12345") morning imported_db)))).
Proof.
  assert (Hreach : reachable (fst (checkin (Some "12345") morning imported_db))).
  { apply reach_checkin.
    apply (reach_import (initialize_database None) (Some roster_csv));
      [apply reach_fresh | reflexivity]. }
  pose proof (proj1 checkin_preserves_single_open_session _ Hreach) as Hinv.
  split; [exact Hinv|].
  exact (proj1 (proj2 checkin_preserves_single_open_session
                  (Some "12345") noon _ Hinv)).
Defined.

Section RepeatedCheckins.

Lemma serve_cons student_id now rest db :
  fst (serve ((student_id, now) :: rest) db)
  = fst (serve rest (fst (checkin student_id now db))).
Proof.
  simpl. destruct (checkin student_id now db) as [db1 rep]. simpl.
  destruct (serve rest db1) as [db2 reps]. reflexivity.
Qed.

Lemma open_sessions_of_sessions sid t :
  open_sessions sid t
  = filter (fun r => Sql.is_null (logins.logout_time r)) (sessions_of sid t).
Proof.
  unfold open_sessions, sessions_of. rewrite <- filter_andb.
  apply filter_ext. intros r. unfold Sql.open_for. simpl.
  now destruct (String.eqb (logins.student_id r) sid).
Qed.

Lemma sessions_of_insert sid i time t :
  sessions_of sid (t ++ [logins.mk_row i sid time None])
  = sessions_of sid t ++ [logins.mk_row i sid time None].
Proof.
  unfold sessions_of. rewrite filter_app. simpl.
  now rewrite String.eqb_refl.
Qed.

Variable r : students.row.
Let sid := students.student_id r.

(** One request of a student who passes the gate toggles the session
    state: from no open session to one, with one more record; from one
    open session to none, with as many records. *)
Lemma checkin_toggle db now :
  students_key db -> In r (students_table db) ->
  waiver_blocks (students.waiver_signed r) = false ->
  let t := logins_table db in
  let t' := logins_table (fst (checkin (Some sid) now db)) in
  (List.length (open_sessions sid t) = 0%nat ->
   List.length (sessions_of sid t') = S (List.length (sessions_of sid t))
   /\ List.length (open_sessions sid t') = 1%nat)
  /\ (List.length (open_sessions sid t) = 1%nat ->
      List.length (sessions_of sid t') = List.length (sessions_of sid t)
      /\ List.length (open_sessions sid t') = 0%nat).
Proof.
  intros Hk Hin Hw. unfold sid. rewrite (checkin_found _ _ _ Hk Hin), Hw.
  destruct (Sql.select_active_session _ _) as [i|] eqn:E; simpl; split;
    intros Hlen.
  - apply length_zero_iff_nil in Hlen.
    apply select_active_session_None in Hlen. congruence.
  - rewrite sessions_after_update, update_logout_length. split; [auto|].
    unfold open_sessions in *. rewrite open_after_update.
    unfold Sql.select_active_session in E.
    destruct (filter _ (logins_table db)) as [|s [|s' l]];
      try discriminate Hlen.
    simpl in E. injection E as <-. simpl. now rewrite Z.eqb_refl.
  - rewrite sessions_of_insert, open_sessions_insert, !length_app.
    rewrite String.eqb_refl, Hlen. simpl. lia.
  - apply select_active_session_None in E. unfold open_sessions in Hlen.
    rewrite E in Hlen. discriminate.
Qed.

Lemma serve_toggle times : forall db o,
  students_key db -> In r (students_table db) ->
  waiver_blocks (students.waiver_signed r) = false ->
  List.length (open_sessions sid (logins_table db)) = o -> (o <= 1)%nat ->
  let t' := logins_table (fst (serve (requests_of sid times) db)) in
  List.length (sessions_of sid t')
  = (List.length (sessions_of sid (logins_table db))
     + (List.length times + 1 - o) / 2)%nat
  /\ List.length (open_sessions sid t') = ((o + List.length times) mod 2)%nat.
Proof.
  induction times as [|now rest IH]; intros db o Hk Hin Hw Ho Hle.
  - simpl. assert (o = 0 \/ o = 1)%nat as [-> | ->] by lia; simpl; auto.
  - change (requests_of sid (now :: rest))
      with ((Some sid, now) :: requests_of sid rest).
    cbv zeta. rewrite serve_cons. cbn [List.length].
    pose proof (checkin_toggle db now Hk Hin Hw) as [H0 H1].
    pose proof (checkin_students (Some sid) now db) as Hst.
    assert (Hk' : students_key (fst (checkin (Some sid) now db)))
      by (unfold students_key; now rewrite Hst).
    assert (Hin' : In r (students_table (fst (checkin (Some sid) now db))))
      by now rewrite Hst.
    assert (o = 0 \/ o = 1)%nat as [-> | ->] by lia.
    + destruct (H0 Ho) as [Hs Hopen].
      destruct (IH _ 1%nat Hk' Hin' Hw Hopen (le_n _)) as [IHs IHo].
      rewrite IHs, IHo, Hs. split.
      * replace (S (List.length rest) + 1 - 0)%nat
          with (List.length rest + 1 - 1 + 1 * 2)%nat by lia.
        rewrite Nat.div_add by lia. lia.
      * reflexivity.
    + destruct (H1 Ho) as [Hs Hopen].
      destruct (IH _ 0%nat Hk' Hin' Hw Hopen (le_S _ _ (le_n _))) as [IHs IHo].
      rewrite IHs, IHo, Hs. split.
      * replace (S (List.length rest) + 1 - 1)%nat
          with (List.length rest + 1 - 0)%nat by lia.
        reflexivity.
      * replace (1 + S (List.length rest))%nat
          with (0 + List.length rest + 1 * 2)%nat by lia.
        now rewrite Nat.Div0.mod_add.
Qed.

(** Every row a request of the student adds to [logins] is a session
    of the student. *)
Lemma checkin_new_rows db now :
  let t := logins_table db in
  let t' := logins_table (fst (checkin (Some sid) now db)) in
  (List.length t' + List.length (sessions_of sid t)
   = List.length t + List.length (sessions_of sid t'))%nat.
Proof.
  destruct (checkin_logins (Some sid) now db)
    as [H | [(s0 & i & Hp & _ & H) | (s0 & Hp & _ & H)]]; cbv zeta in *;
    rewrite H.
  - lia.
  - now rewrite sessions_after_update, !update_logout_length.
  - injection Hp as <-.
    rewrite sessions_of_insert, !length_app. simpl. lia.
Qed.

Lemma serve_new_rows times : forall db,
  let t' := logins_table (fst (serve (requests_of sid times) db)) in
  (List.length t' + List.length (sessions_of sid (logins_table db))
   = List.length (logins_table db) + List.length (sessions_of sid t'))%nat.
Proof.
  induction times as [|now rest IH]; intros db; cbv zeta.
  - simpl. lia.
  - change (requests_of sid (now :: rest))
      with ((Some sid, now) :: requests_of sid rest).
    rewrite serve_cons.
    pose proof (IH (fst (checkin (Some sid) now db))) as H1.
    pose proof (checkin_new_rows db now) as H2.
    cbv zeta in H1, H2. lia.
Qed.

End RepeatedCheckins.

(** C6: for a student of the table who passes the waiver gate and has no
    login record, N consecutive /checkin requests of that student add
    exactly ceil(N/2) login records to the table, all of them records of
    the student; none of them is open when N is even and exactly one is
    open when N is odd; replaying N such requests from the same database,
    at whatever times, gives the same number of records. *)
Theorem repeated_checkins_session_count
  (db : database) (r : students.row) (times : list datetime) :
  students_key db -> In r (students_table db) ->
  waiver_blocks (students.waiver_signed r) = false ->
  sessions_of (students.student_id r) (logins_table db) = [] ->
  let sid := students.student_id r in
  let n := List.length times in
  let after ts := logins_table (fst (serve (requests_of sid ts) db)) in
  List.length (sessions_of sid (after times)) = ceil_half n
  /\ List.length (after times)
     = (List.length (logins_table db) + ceil_half n)%nat
  /\ List.length (open_sessions sid (after times)) = (n mod 2)%nat
  /\ (forall times', List.length times' = n ->
        List.length (sessions_of sid (after times'))
        = List.length (sessions_of sid (after times))).
Proof.
  intros Hk Hin Hw Hnone sid n after.
  assert (Hopen : List.length (open_sessions sid (logins_table db)) = 0%nat)
    by (rewrite open_sessions_of_sessions; unfold sid; now rewrite Hnone).
  assert (Hcount : forall ts,
            List.length (sessions_of sid (after ts))
            = ceil_half (List.length ts)
            /\ List.length (open_sessions sid (after ts))
               = (List.length ts mod 2)%nat).
  { intros ts.
    destruct (serve_toggle r ts db 0%nat Hk Hin Hw Hopen (Nat.le_0_l _))
      as [Hs Ho].
    fold sid in Hs, Ho. unfold after. rewrite Hs, Ho. unfold sid.
    rewrite Hnone. simpl. unfold ceil_half. rewrite Nat.sub_0_r. auto. }
  split; [apply Hcount|]. split; [|split; [apply Hcount|]].
  - pose proof (serve_new_rows r times db) as H. cbv zeta in H.
    fold sid in H. fold (after times) in H.
    rewrite (proj1 (Hcount times)) in H. unfold sid in H.
    rewrite Hnone in H. simpl in H. fold n in H. lia.
  - intros times' Hlen.
    rewrite (proj1 (Hcount times')), (proj1 (Hcount times)).
    unfold n in Hlen. now rewrite Hlen.
Qed.

Lemma repeated_checkins_session_count_witness :
  let after ts := logins_table (fst (serve (requests_of "12345" ts) roster_db)) in
  List.length (sessions_of "12345" (after [morning; noon; noon])) = 2%nat
  /\ List.length (after [morning; noon; noon]) = 2%nat
  /\ List.length (open_sessions "12345" (after [morning; noon; noon])) = 1%nat
  /\ (forall times', List.length times' = 3%nat ->
        List.length (sessions_of "12345" (after times'))
        = List.length (sessions_of "12345" (after [morning; noon; noon]))).
Proof.
  apply (repeated_checkins_session_count roster_db alice [morning; noon; noon]).
  - unfold students_key. simpl. key_tac.
  - simpl. tauto.
  - reflexivity.
  - reflexivity.
Defined.

(** ** The roster import *)

Section ImportFacts.

Let keys (t : list students.row) : list string :=
  map students.student_id t.

Lemma key_exists k t :
  existsb (fun r' => String.eqb (students.student_id r') k) t = true
  <-> In k (keys t).
Proof.
  unfold keys. rewrite existsb_exists, in_map_iff.
  split; intros [r' H]; exists r'; rewrite String.eqb_eq in *; tauto.
Qed.

Lemma insert_or_ignore_present r t :
  In (students.student_id r) (keys t) ->
  Sql.insert_or_ignore_student r t = t.
Proof.
  intros H. unfold Sql.insert_or_ignore_student.
  now rewrite (proj2 (key_exists _ _) H).
Qed.

Lemma insert_or_ignore_keys r t :
  In (students.student_id r) (keys (Sql.insert_or_ignore_student r t))
  /\ incl (keys t) (keys (Sql.insert_or_ignore_student r t)).
Proof.
  unfold Sql.insert_or_ignore_student.
  destruct (existsb _ t) eqn:E.
  - split; [now apply key_exists | apply incl_refl].
  - unfold keys. rewrite map_app. split.
    + apply in_or_app. right. now left.
    + apply incl_appl, incl_refl.
Qed.

Lemma import_rows_incl rows : forall t t1,
  import_rows rows t = Some t1 -> incl (keys t) (keys t1).
Proof.
  induction rows as [|row rest IH]; simpl; intros t t1 H.
  - injection H as <-. apply incl_refl.
  - destruct (import_row row t) as [ta|] eqn:E; [|discriminate].
    apply incl_tran with (keys ta); [|now apply IH].
    unfold import_row in E.
    destruct (nth_error row 0), (nth_error row 1), (nth_error row 3),
      (nth_error row 10); try discriminate.
    injection E as <-. exact (proj2 (insert_or_ignore_keys _ _)).
Qed.

(** A row that went into a table is ignored by every table that holds
    the keys of the result. *)
Lemma import_row_ignored row t ta t2 :
  import_row row t = Some ta -> incl (keys ta) (keys t2) ->
  import_row row t2 = Some t2.
Proof.
  unfold import_row.
  destruct (nth_error row 0), (nth_error row 1), (nth_error row 3),
    (nth_error row 10); try discriminate.
  intros [= <-] Hincl. f_equal. apply insert_or_ignore_present.
  apply Hincl. exact (proj1 (insert_or_ignore_keys _ _)).
Qed.

Lemma import_rows_ignored rows : forall t t1 t2,
  import_rows rows t = Some t1 -> incl (keys t1) (keys t2) ->
  import_rows rows t2 = Some t2.
Proof.
  induction rows as [|row rest IH]; simpl; intros t t1 t2 H Hincl;
    [reflexivity|].
  destruct (import_row row t) as [ta|] eqn:E; [|discriminate].
  rewrite (import_row_ignored row t ta t2 E).
  - now apply (IH ta t1).
  - apply incl_tran with (keys t1); [|exact Hincl].
    now apply (import_rows_incl rest).
Qed.

End ImportFacts.

(** C7: when the roster import has run on a file, a second run on the
    same file leaves the students table exactly as the first run left it,
    same rows in the same number: every row of the file finds its
    identifier in the table and is skipped.  The logins table is not
    touched either. *)
Theorem import_csv_idempotent
  (file : option (list csv_row)) (db db1 : database) :
  import_csv file db = Some db1 ->
  import_csv file db1 = Some db1.
Proof.
  unfold import_csv. destruct file as [[|header rows]|]; try discriminate.
  destruct (import_rows rows (students_table db)) as [t1|] eqn:E;
    [|discriminate].
  intros [= <-]. simpl.
  now rewrite (import_rows_ignored rows _ t1 t1 E (incl_refl _)).
Qed.

Lemma import_csv_idempotent_witness :
  import_csv (Some roster_csv) empty_database = Some imported_db
  /\ import_csv (Some roster_csv) imported_db = Some imported_db.
Proof.
  split; [reflexivity|].
  apply (import_csv_idempotent (Some roster_csv) empty_database imported_db).
  reflexivity.
Defined.

(** ** Closing a session *)

Section RecordLogout.

Lemma update_first_split f g before s after :
  (forall r, In r before -> f r = false) -> f s = true ->
  update_first f g (before ++ s :: after) = before ++ g s :: after.
Proof.
  intros Hb Hs. induction before as [|r before IH]; simpl.
  - now rewrite Hs.
  - rewrite (Hb r (or_introl eq_refl)). f_equal. apply IH.
    intros r' Hr'. apply Hb. now right.
Qed.

(** Under the primary key, the UPDATE of [record_logout] writes what
    the handler's SELECT followed by its UPDATE by id writes. *)
Lemma update_latest_open_by_id time p t :
  NoDup (map logins.id t) ->
  update_latest_open time p t
  = match Sql.select_active_session p t with
    | Some i => Sql.update_logout time i t
    | None => t
    end.
Proof.
  intros Hnd. unfold update_latest_open.
  destruct (Sql.select_active_session p t) as [i|] eqn:E; [|reflexivity].
  apply select_active_session_Some in E.
  destruct E as [[s [Hs [Ho Hi]]] _].
  destruct (in_split _ _ Hs) as [before [after ->]]. subst i.
  rewrite update_logout_split by exact Hnd.
  apply update_first_split.
  - intros r Hr. apply andb_false_iff. right. apply Z.eqb_neq.
    rewrite map_app in Hnd. simpl in Hnd.
    intros Heq. apply (NoDup_remove_2 _ _ _ Hnd). rewrite <- Heq.
    apply in_or_app. left. now apply in_map.
  - now rewrite Ho, Z.eqb_refl.
Qed.

End RecordLogout.

(** C8: the close operation of the handler, [UPDATE logins SET
    logout_time = ? WHERE id = ?], takes a session id and a timestamp:
    it sets the logout time of the record with that id, keeps the other
    columns of that record, and leaves every other record as it was; the
    id being the primary key, exactly one record is rewritten when the id
    is in the table, and none when it is not.  ([record_logout] takes a
    student identifier instead, see [update_latest_open_by_id].) *)
Theorem update_logout_closes_by_id
  (time : string) (session : Z) (t : list logins.row) :
  List.length (Sql.update_logout time session t) = List.length t
  /\ (forall n r, nth_error t n = Some r ->
        nth_error (Sql.update_logout time session t) n
        = Some (if Z.eqb (logins.id r) session
                then logins.mk_row (logins.id r) (logins.student_id r)
                       (logins.login_time r) (Some time)
                else r))
  /\ (NoDup (map logins.id t) ->
      forall r, In r t -> logins.id r = session ->
      exists before after,
        t = before ++ r :: after
        /\ Sql.update_logout time session t
           = before ++ Sql.set_logout time r :: after)
  /\ ((forall r, In r t -> logins.id r <> session) ->
      Sql.update_logout time session t = t).
Proof.
  split; [apply update_logout_length|]. split; [|split].
  - intros n r H. unfold Sql.update_logout.
    rewrite nth_error_map, H. reflexivity.
  - intros Hnd r Hin <-. destruct (in_split _ _ Hin) as [before [after ->]].
    exists before, after. split; [reflexivity|].
    now apply update_logout_split.
  - apply update_logout_other.
Qed.

Lemma update_logout_closes_by_id_witness :
  exists before after,
    logins_table busy_db
    = before ++ logins.mk_row 2 "12345" "2026-01-22T14:39:36" None :: after
    /\ Sql.update_logout "2026-01-22T15:00:05" 2 (logins_table busy_db)
       = before
         ++ logins.mk_row 2 "12345" "2026-01-22T14:39:36"
              (Some "2026-01-22T15:00:05") :: after.
Proof.
  apply (proj1 (proj2 (proj2
           (update_logout_closes_by_id "2026-01-22T15:00:05" 2
              (logins_table busy_db))))).
  - simpl. key_tac.
  - simpl. tauto.
  - reflexivity.
Defined.

(** ** The databases the program produces *)

Section StripFacts.

Import PyStr.

Lemma lstrip_lstrip s : lstrip (lstrip s) = lstrip s.
Proof.
  induction s as [|c s IH]; simpl; [reflexivity|].
  destruct (isspace c) eqn:E; [exact IH|]. simpl. now rewrite E.
Qed.

Lemma rstrip_rstrip s : rstrip (rstrip s) = rstrip s.
Proof.
  induction s as [|c s IH]; simpl; [reflexivity|].
  destruct (rstrip s) as [|a r] eqn:E.
  - destruct (isspace c) eqn:Ec; simpl; [reflexivity|]. now rewrite Ec.
  - change (rstrip (String c (String a r))) with
      (match rstrip (String a r) with
       | EmptyString => if isspace c then EmptyString else String c EmptyString
       | String a' r' => String c (String a' r')
       end).
    now rewrite IH.
Qed.

Lemma lstrip_strip s : lstrip (strip s) = strip s.
Proof.
  unfold strip. induction s as [|c s IH]; simpl; [reflexivity|].
  destruct (isspace c) eqn:E; [exact IH|]. simpl.
  destruct (rstrip s) as [|a r]; rewrite ?E; simpl; now rewrite E.
Qed.

(** [s.strip().strip() == s.strip()] *)
Lemma strip_idempotent s : strip (strip s) = strip s.
Proof.
  unfold strip at 1. rewrite lstrip_strip. unfold strip.
  apply rstrip_rstrip.
Qed.

(** On a stripped flag the gate of the handler blocks the empty string
    and "0" only. *)
Lemma waiver_blocks_stripped w :
  strip w = w -> (waiver_blocks w = false <-> signed_as_specified w).
Proof.
  intros H. rewrite waiver_blocks_false, H. reflexivity.
Qed.

End StripFacts.

Section ReachableFacts.

Lemma NoDup_snoc {A} (l : list A) (x : A) :
  NoDup l -> ~ In x l -> NoDup (l ++ [x]).
Proof.
  induction 1 as [|y l Hy Hnd IH]; simpl; intros Hx.
  - constructor; [tauto | constructor].
  - constructor.
    + rewrite in_app_iff. simpl. intros [H | [H | []]]; [tauto|].
      apply Hx. now left.
    + apply IH. tauto.
Qed.

Lemma insert_or_ignore_key r t :
  NoDup (map students.student_id t) ->
  NoDup (map students.student_id (Sql.insert_or_ignore_student r t)).
Proof.
  intros Hnd. unfold Sql.insert_or_ignore_student.
  destruct (existsb _ t) eqn:E; [exact Hnd|].
  rewrite map_app. simpl. apply NoDup_snoc; [exact Hnd|].
  intros Hin. apply key_exists in Hin. congruence.
Qed.

Lemma import_rows_invariant rows : forall t t1,
  import_rows rows t = Some t1 ->
  (NoDup (map students.student_id t) -> NoDup (map students.student_id t1))
  /\ (flags_stripped t -> flags_stripped t1).
Proof.
  unfold flags_stripped.
  induction rows as [|row rest IH]; simpl; intros t t1 H.
  - injection H as <-. tauto.
  - destruct (import_row row t) as [ta|] eqn:E; [|discriminate].
    destruct (IH ta t1 H) as [IHk IHf]. unfold import_row in E.
    destruct (nth_error row 0), (nth_error row 1), (nth_error row 3),
      (nth_error row 10); try discriminate.
    injection E as <-. split; intros Ht.
    + apply IHk. now apply insert_or_ignore_key.
    + apply IHf. unfold Sql.insert_or_ignore_student.
      destruct (existsb _ t); [exact Ht|].
      apply Forall_app. split; [exact Ht|].
      constructor; [|constructor]. simpl. apply strip_idempotent.
Qed.

Lemma update_logout_ids time i t :
  map logins.id (Sql.update_logout time i t) = map logins.id t.
Proof.
  unfold Sql.update_logout. rewrite map_map. apply map_ext.
  intros r. now destruct (Z.eqb (logins.id r) i).
Qed.

(** The primary keys hold, and the flags are stripped, in every database
    the program reaches from a fresh file. *)
Lemma reachable_well_formed db :
  reachable db ->
  students_key db /\ logins_key db /\ flags_stripped (students_table db).
Proof.
  unfold students_key, logins_key, flags_stripped.
  induction 1 as [|db file db' _ IH Himp|db sid now _ IH].
  - simpl. repeat split; constructor.
  - destruct IH as [Hs [Hl Hf]].
    rewrite (import_csv_logins _ _ _ Himp). unfold import_csv in Himp.
    destruct file as [[|header rows]|]; try discriminate.
    destruct (import_rows rows (students_table db)) as [t1|] eqn:E;
      [|discriminate].
    injection Himp as <-. simpl.
    destruct (import_rows_invariant _ _ _ E) as [Hk' Hf'].
    repeat split; [now apply Hk' | exact Hl | now apply Hf'].
  - destruct IH as [Hs [Hl Hf]]. rewrite checkin_students.
    repeat split; auto.
    destruct (checkin_logins sid now db)
      as [-> | [(s0 & i & _ & _ & ->) | (s0 & _ & _ & ->)]]; auto.
    + now rewrite update_logout_ids.
    + rewrite map_app. simpl. apply NoDup_snoc; [exact Hl|].
      intros Hin. apply in_map_iff in Hin. destruct Hin as [l [Hid Hl']].
      pose proof (next_id_fresh _ (logins_seq db) _ Hl'). lia.
Qed.

End ReachableFacts.

(** C2: for every student present in the students table with a signed
    waiver (the flag is neither empty nor "0") and no open session, in a
    database the program has produced, one /checkin request inserts
    exactly one new login record, with a fresh id, a NULL logout time and
    the time of the request (ISO-8601, to the second) as login time, and
    replies "<first> <last> checked IN at <time>" with that stored
    time. *)
Theorem checkin_opens_session
  (db : database) (r : students.row) (now : datetime) :
  reachable db -> In r (students_table db) ->
  students.waiver_signed r <> "" -> students.waiver_signed r <> "0" ->
  open_sessions (students.student_id r) (logins_table db) = [] ->
  exists i,
    (forall l, In l (logins_table db) -> (logins.id l < i)%Z)
    /\ checkin (Some (students.student_id r)) now db
       = (mk_database (students_table db)
            (logins_table db
             ++ [logins.mk_row i (students.student_id r)
                   (isoformat_seconds now) None])
            i,
          message (students.first_name r ++ " " ++ students.last_name r
                   ++ " checked IN at " ++ isoformat_seconds now)).
Proof.
  intros Hreach Hin Hw1 Hw2 Hopen.
  destruct (reachable_well_formed db Hreach) as [Hk [_ Hf]].
  apply (checkin_checks_in db r now); auto.
  apply waiver_blocks_stripped; [|split; assumption].
  unfold flags_stripped in Hf. rewrite Forall_forall in Hf. now apply Hf.
Qed.

Lemma checkin_opens_session_witness :
  exists i,
    (forall l, In l (logins_table
                       (fst (serve [(Some "12345", morning);
                                    (Some "12345", noon)] imported_db))) ->
               (logins.id l < i)%Z)
    /\ checkin (Some "12345") noon
         (fst (serve [(Some "12345", morning); (Some "12345", noon)]
                 imported_db))
       = (mk_database [alice; carol]
            [logins.mk_row 1 "12345" "2026-01-22T14:39:36"
               (Some "2026-01-22T15:00:05");
             logins.mk_row i "12345" "2026-01-22T15:00:05" None]
            i,
          Json [("message", "Alice Smith checked IN at 2026-01-22T15:00:05")]).
Proof.
  apply (checkin_opens_session
           (fst (serve [(Some "12345", morning); (Some "12345", noon)]
                   imported_db))
           alice noon).
  - apply (reach_checkin (fst (checkin (Some "12345") morning imported_db))
             (Some "12345") noon).
    apply (reach_checkin imported_db (Some "12345") morning).
    apply (reach_import (initialize_database None) (Some roster_csv));
      [apply reach_fresh | reflexivity].
  - simpl. tauto.
  - discriminate.
  - discriminate.
  - reflexivity.
Defined.

(** ** The timestamps *)

Lemma isoformat_seconds_length (d : datetime) :
  String.length (isoformat_seconds d) = 19%nat.
Proof. reflexivity. Qed.

Lemma isoformat_seconds_drops_microseconds y mo d h mi s us us' :
  isoformat_seconds (mk_datetime y mo d h mi s us)
  = isoformat_seconds (mk_datetime y mo d h mi s us').
Proof. reflexivity. Qed.

Example isoformat_seconds_morning :
  isoformat_seconds morning = "2026-01-22T14:39:36".
Proof. reflexivity. Qed.

(** ** More on the roster import *)

Section ImportMore.

Lemma import_row_student row t :
  import_row row t
  = match row_student row with
    | Some r => Some (Sql.insert_or_ignore_student r t)
    | None => None
    end.
Proof.
  unfold import_row, row_student.
  destruct (nth_error row 0), (nth_error row 1), (nth_error row 3),
    (nth_error row 10); reflexivity.
Qed.

Lemma row_student_long row :
  row_student row <> None <-> (11 <= List.length row)%nat.
Proof.
  unfold row_student. split.
  - intros H. destruct (nth_error row 10) eqn:E.
    + assert (nth_error row 10 <> None) as H10 by congruence.
      apply nth_error_Some in H10. lia.
    + destruct (nth_error row 0), (nth_error row 1), (nth_error row 3);
        congruence.
  - intros H.
    destruct (nth_error row 0) eqn:E0;
      [|apply nth_error_None in E0; lia].
    destruct (nth_error row 1) eqn:E1;
      [|apply nth_error_None in E1; lia].
    destruct (nth_error row 3) eqn:E3;
      [|apply nth_error_None in E3; lia].
    destruct (nth_error row 10) eqn:E10;
      [|apply nth_error_None in E10; lia].
    discriminate.
Qed.

Lemma import_rows_succeed rows : forall t,
  import_rows rows t <> None
  <-> Forall (fun row => (11 <= List.length row)%nat) rows.
Proof.
  induction rows as [|row rest IH]; intros t; simpl.
  - split; [constructor | discriminate].
  - rewrite import_row_student, Forall_cons_iff, <- row_student_long.
    destruct (row_student row) as [r|].
    + rewrite IH. split; [intros H; split; [discriminate | exact H] | tauto].
    + split; [congruence | tauto].
Qed.

Lemma import_rows_app pre post : forall t,
  import_rows (pre ++ post) t
  = match import_rows pre t with
    | Some t1 => import_rows post t1
    | None => None
    end.
Proof.
  induction pre as [|row pre IH]; intros t; simpl; [reflexivity|].
  destruct (import_row row t); [apply IH | reflexivity].
Qed.

Lemma insert_or_ignore_prefix r t :
  exists added, Sql.insert_or_ignore_student r t = t ++ added
                /\ (added = [] \/ added = [r]).
Proof.
  unfold Sql.insert_or_ignore_student. destruct (existsb _ t).
  - exists []. rewrite app_nil_r. auto.
  - exists [r]. auto.
Qed.

Lemma import_rows_prefix rows : forall t t1,
  import_rows rows t = Some t1 ->
  exists added,
    t1 = t ++ added
    /\ forall r, In r added ->
         exists row, In row rows /\ row_student row = Some r.
Proof.
  induction rows as [|row rest IH]; simpl; intros t t1 H.
  - injection H as <-. exists []. rewrite app_nil_r. split; [auto|].
    intros r [].
  - rewrite import_row_student in H.
    destruct (row_student row) as [r0|] eqn:E; [|discriminate].
    destruct (insert_or_ignore_prefix r0 t) as [a0 [Ha0 Hc]].
    rewrite Ha0 in H. destruct (IH _ _ H) as [a1 [-> Ha1]].
    exists (a0 ++ a1). rewrite app_assoc. split; [reflexivity|].
    intros r Hr. apply in_app_or in Hr. destruct Hr as [Hr|Hr].
    + destruct Hc as [-> | ->]; [contradiction|].
      destruct Hr as [<-|[]]. exists row. auto.
    + destruct (Ha1 r Hr) as [row' [Hin Hrow]]. exists row'. auto.
Qed.

Lemma import_rows_ids rows : forall t t1,
  import_rows rows t = Some t1 ->
  forall k, In k (student_ids t1)
            <-> In k (student_ids t)
                \/ exists row r, In row rows /\ row_student row = Some r
                                 /\ students.student_id r = k.
Proof.
  induction rows as [|row rest IH]; simpl; intros t t1 H k.
  - injection H as <-. split; [auto|]. intros [H|[row [r [[] _]]]]. exact H.
  - rewrite import_row_student in H.
    destruct (row_student row) as [r0|] eqn:E; [|discriminate].
    rewrite (IH _ _ H k). clear IH H.
    assert (Hk : In k (student_ids (Sql.insert_or_ignore_student r0 t))
                 <-> In k (student_ids t) \/ students.student_id r0 = k).
    { unfold Sql.insert_or_ignore_student, student_ids.
      destruct (existsb _ t) eqn:Ex.
      - apply key_exists in Ex. split; [auto|]. intros [H|<-]; auto.
      - rewrite map_app, in_app_iff. simpl. tauto. }
    rewrite Hk. split.
    + intros [[H|H]|[row' [r [Hin [Hr Hid]]]]]; auto.
      * right. exists row, r0. auto.
      * right. exists row', r. auto.
    + intros [H|[row' [r [[<-|Hin] [Hr Hid]]]]]; auto.
      * left. right. congruence.
      * right. exists row', r. auto.
Qed.

End ImportMore.

(** X1: a successful roster import only appends to the students table:
    the rows that were there stay, in place and unchanged, and the
    logins table and its id counter are not touched. *)
Theorem import_csv_appends
  (file : option (list csv_row)) (db db' : database) :
  import_csv file db = Some db' ->
  (exists added, students_table db' = students_table db ++ added)
  /\ logins_table db' = logins_table db
  /\ logins_seq db' = logins_seq db.
Proof.
  unfold import_csv. destruct file as [[|header rows]|]; try discriminate.
  destruct (import_rows rows (students_table db)) as [t1|] eqn:E;
    [|discriminate].
  intros [= <-]. simpl. repeat split.
  destruct (import_rows_prefix _ _ _ E) as [added [-> _]]. now exists added.
Qed.

Lemma import_csv_appends_witness :
  (exists added, students_table (mk_database [alice; carol; bob_signed] (logins_table busy_db) 2)
                 = students_table (mk_database [alice; carol] (logins_table busy_db) 2)
                   ++ added)
  /\ logins_table (mk_database [alice; carol; bob_signed] (logins_table busy_db) 2)
     = logins_table busy_db
  /\ logins_seq (mk_database [alice; carol; bob_signed] (logins_table busy_db) 2) = 2%Z.
Proof.
  apply (import_csv_appends (Some update_csv)
           (mk_database [alice; carol] (logins_table busy_db) 2)).
  vm_compute. reflexivity.
Defined.

(** X2: the roster import succeeds exactly when the file is opened and
    read to its end as records (no error of [open], of the decoding or
    of [csv.reader]), has a first record (the header, whatever its
    length) and every other record has at least eleven fields; otherwise
    it raises and nothing is committed. *)
Theorem import_csv_succeeds_iff
  (file : option (list csv_row)) (db : database) :
  import_csv file db <> None
  <-> exists header rows,
        file = Some (header :: rows)
        /\ Forall (fun row => (11 <= List.length row)%nat) rows.
Proof.
  unfold import_csv. destruct file as [[|header rows]|].
  - split; [congruence|]. intros [h [r [H _]]]. discriminate.
  - pose proof (import_rows_succeed rows (students_table db)) as H.
    destruct (import_rows rows (students_table db)) as [t1|].
    + split; [|discriminate]. intros _. exists header, rows.
      split; [reflexivity|]. apply H. discriminate.
    + split; [congruence|]. intros [h [r [[= <- <-] HF]]].
      apply H in HF. congruence.
  - split; [congruence|]. intros [h [r [H _]]]. discriminate.
Qed.

(** X3: after a successful import the identifiers of the students table
    are those it had before together with the stripped identifier field
    of every record of the file after the header. *)
Theorem import_csv_student_ids
  (header : csv_row) (rows : list csv_row) (db db' : database) :
  import_csv (Some (header :: rows)) db = Some db' ->
  forall k,
    In k (student_ids (students_table db'))
    <-> In k (student_ids (students_table db))
        \/ exists row r, In row rows /\ row_student row = Some r
                         /\ students.student_id r = k.
Proof.
  unfold import_csv.
  destruct (import_rows rows (students_table db)) as [t1|] eqn:E;
    [|discriminate].
  intros [= <-]. simpl. now apply import_rows_ids.
Qed.

Lemma import_csv_student_ids_witness :
  In "7" (student_ids [alice; carol; bob_signed])
  <-> In "7" (student_ids (students_table imported_db))
      \/ exists row r, In row (tl update_csv) /\ row_student row = Some r
                       /\ students.student_id r = "7".
Proof.
  apply (import_csv_student_ids [] (tl update_csv) imported_db
           (mk_database [alice; carol; bob_signed]
              [] 0)).
  vm_compute. reflexivity.
Defined.

(** X4: first record wins.  When the identifier of a record of the file
    is neither in the table nor in an earlier record, the lookup of the
    handler returns, after the import, the stripped first name (field 1),
    last name (field 0) and waiver flag (field 10) of that record, also
    when later records carry the same identifier. *)
Theorem import_csv_first_record_wins
  (header : csv_row) (pre : list csv_row) (row : csv_row)
  (post : list csv_row) (db db' : database) (r : students.row) :
  students_key db ->
  import_csv (Some (header :: pre ++ row :: post)) db = Some db' ->
  row_student row = Some r ->
  ~ In (students.student_id r) (student_ids (students_table db)) ->
  (forall row' r', In row' pre -> row_student row' = Some r' ->
                   students.student_id r' <> students.student_id r) ->
  Sql.select_student (Some (students.student_id r)) (students_table db')
  = Some (students.first_name r, students.last_name r,
          students.waiver_signed r).
Proof.
  intros Hk Himp Hrow Hnew Hpre. unfold import_csv in Himp.
  destruct (import_rows (pre ++ row :: post) (students_table db))
    as [t1|] eqn:E; [|discriminate].
  injection Himp as <-. simpl.
  rewrite import_rows_app in E.
  destruct (import_rows pre (students_table db)) as [tp|] eqn:Ep;
    [|discriminate].
  simpl in E. rewrite import_row_student, Hrow in E.
  assert (Hfresh : ~ In (students.student_id r) (student_ids tp)).
  { intros Hin. apply (import_rows_ids _ _ _ Ep) in Hin.
    destruct Hin as [Hin|[row' [r' [Hin [Hr Hid]]]]]; [tauto|].
    exact (Hpre row' r' Hin Hr Hid). }
  assert (Hins : Sql.insert_or_ignore_student r tp = tp ++ [r]).
  { unfold Sql.insert_or_ignore_student.
    destruct (existsb _ tp) eqn:Ex; [|reflexivity].
    apply key_exists in Ex. contradiction. }
  rewrite Hins in E.
  destruct (import_rows_prefix _ _ _ E) as [added [-> _]].
  apply select_student_In.
  - pose proof (proj1 (import_rows_invariant _ _ _ Ep) Hk) as Hkp.
    apply (proj1 (import_rows_invariant _ _ _ E)).
    rewrite map_app. simpl. apply NoDup_snoc; assumption.
  - apply in_or_app. left. apply in_or_app. right. now left.
Qed.

Lemma import_csv_first_record_wins_witness :
  Sql.select_student (Some "12345") (students_table imported_db)
  = Some ("Alice", "Smith", "1").
Proof.
  apply (import_csv_first_record_wins
           (hd [] roster_csv) [] (nth 1 roster_csv []) (tl (tl roster_csv))
           empty_database imported_db alice).
  - unfold students_key. simpl. constructor.
  - reflexivity.
  - reflexivity.
  - simpl. tauto.
  - simpl. tauto.
Defined.

(** X5: the import never updates a student.  A student of the table
    keeps first name, last name and waiver flag through an import,
    whatever the file says under the same identifier: the lookup of the
    handler returns the old values. *)
Theorem import_csv_never_updates
  (file : option (list csv_row)) (db db' : database) (r : students.row) :
  students_key db -> In r (students_table db) ->
  import_csv file db = Some db' ->
  Sql.select_student (Some (students.student_id r)) (students_table db')
  = Some (students.first_name r, students.last_name r,
          students.waiver_signed r).
Proof.
  intros Hk Hin Himp. unfold import_csv in Himp.
  destruct file as [[|header rows]|]; try discriminate.
  destruct (import_rows rows (students_table db)) as [t1|] eqn:E;
    [|discriminate].
  injection Himp as <-. simpl. apply select_student_In.
  - exact (proj1 (import_rows_invariant _ _ _ E) Hk).
  - destruct (import_rows_prefix _ _ _ E) as [added [-> _]].
    apply in_or_app. now left.
Qed.

Lemma import_csv_never_updates_witness :
  import_csv (Some update_csv) imported_db
  = Some (mk_database
            [alice; carol; bob_signed] [] 0)
  /\ Sql.select_student (Some "12345")
       [alice; carol; bob_signed]
     = Some ("Alice", "Smith", "1").
Proof.
  split; [reflexivity|].
  apply (import_csv_never_updates (Some update_csv) imported_db
           (mk_database
              [alice; carol; bob_signed] [] 0)
           alice).
  - unfold students_key. simpl. key_tac.
  - simpl. tauto.
  - reflexivity.
Defined.

(** X6: the import keeps the primary key of the students table, also on
    a file that repeats an identifier, and every row it adds has its four
    columns stripped of surrounding whitespace. *)
Theorem import_csv_keeps_key_and_strips
  (file : option (list csv_row)) (db db' : database) :
  students_key db -> import_csv file db = Some db' ->
  students_key db'
  /\ forall r, In r (students_table db') ->
       In r (students_table db)
       \/ (PyStr.strip (students.student_id r) = students.student_id r
           /\ PyStr.strip (students.first_name r) = students.first_name r
           /\ PyStr.strip (students.last_name r) = students.last_name r
           /\ PyStr.strip (students.waiver_signed r)
              = students.waiver_signed r).
Proof.
  intros Hk Himp. unfold import_csv in Himp.
  destruct file as [[|header rows]|]; try discriminate.
  destruct (import_rows rows (students_table db)) as [t1|] eqn:E;
    [|discriminate].
  injection Himp as <-. unfold students_key. simpl. split.
  - exact (proj1 (import_rows_invariant _ _ _ E) Hk).
  - destruct (import_rows_prefix _ _ _ E) as [added [-> Hadded]].
    intros r Hr. apply in_app_or in Hr. destruct Hr as [Hr|Hr]; [now left|].
    right. destruct (Hadded r Hr) as [row [_ Hrow]].
    unfold row_student in Hrow.
    destruct (nth_error row 0), (nth_error row 1), (nth_error row 3),
      (nth_error row 10); try discriminate.
    injection Hrow as <-. simpl.
    repeat split; apply strip_idempotent.
Qed.

Lemma import_csv_keeps_key_and_strips_witness :
  students_key imported_db
  /\ forall r, In r (students_table imported_db) ->
       In r (students_table empty_database)
       \/ (PyStr.strip (students.student_id r) = students.student_id r
           /\ PyStr.strip (students.first_name r) = students.first_name r
           /\ PyStr.strip (students.last_name r) = students.last_name r
           /\ PyStr.strip (students.waiver_signed r)
              = students.waiver_signed r).
Proof.
  apply (import_csv_keeps_key_and_strips (Some roster_csv) empty_database).
  - unfold students_key. simpl. constructor.
  - reflexivity.
Defined.

(** ** More on the handler *)

(** X7: in every database the program has produced from a fresh file,
    whatever the form field, /checkin answers with a JSON object of the
    single key "message" and does not raise (the INSERT never meets a
    NULL student_id); the text is the not-found text, the waiver block,
    or a "checked OUT at" or "checked IN at" line carrying the time of
    the request. *)
Theorem checkin_always_replies
  (student_id : option string) (now : datetime) (db : database) :
  reachable db ->
  exists text,
    snd (checkin student_id now db) = Json [("message", text)]
    /\ (text = "Student ID not found"
        \/ exists first last,
             text = (first ++ " " ++ last
                     ++ " cannot check in - liability waiver")%string
             \/ text = (first ++ " " ++ last ++ " checked OUT at "
                        ++ isoformat_seconds now)%string
             \/ text = (first ++ " " ++ last ++ " checked IN at "
                        ++ isoformat_seconds now)%string).
Proof.
  intros _. unfold checkin.
  destruct (Sql.select_student _ _) as [[[f l] w]|] eqn:E.
  - apply select_student_Some in E. destruct E as [r [_ [-> _]]].
    destruct (waiver_blocks w).
    + eexists. split; [reflexivity|]. right. exists f, l. auto.
    + destruct (Sql.select_active_session _ _); simpl.
      * eexists. split; [reflexivity|]. right. exists f, l. auto.
      * eexists. split; [reflexivity|]. right. exists f, l. auto.
  - eexists. split; [reflexivity|]. now left.
Qed.

Lemma checkin_always_replies_witness :
  exists text,
    snd (checkin None noon (fst (checkin (Some "12345") morning imported_db)))
    = Json [("message", text)]
    /\ (text = "Student ID not found"
        \/ exists first last,
             text = (first ++ " " ++ last
                     ++ " cannot check in - liability waiver")%string
             \/ text = (first ++ " " ++ last ++ " checked OUT at "
                        ++ isoformat_seconds noon)%string
             \/ text = (first ++ " " ++ last ++ " checked IN at "
                        ++ isoformat_seconds noon)%string).
Proof.
  apply (checkin_always_replies None noon
           (fst (checkin (Some "12345") morning imported_db))).
  apply (reach_checkin imported_db (Some "12345") morning).
  apply (reach_import (initialize_database None) (Some roster_csv));
    [apply reach_fresh | reflexivity].
Defined.

Section GateFacts.

Import PyStr.

Lemma lstrip_empty s : lstrip s = "" <-> all_space s = true.
Proof.
  induction s as [|c s IH]; simpl; [tauto|].
  destruct (isspace c); simpl; [exact IH|]. split; discriminate.
Qed.

Lemma rstrip_lstrip_empty s : rstrip (lstrip s) = "" <-> lstrip s = "".
Proof.
  induction s as [|c s IH]; simpl; [tauto|].
  destruct (isspace c) eqn:E; [exact IH|]. simpl.
  destruct (rstrip s); rewrite ?E; split; discriminate.
Qed.

Lemma strip_empty s : strip s = "" <-> all_space s = true.
Proof. unfold strip. now rewrite rstrip_lstrip_empty, lstrip_empty. Qed.

End GateFacts.

(** X8: the waiver roadblock stops exactly the flags made of whitespace
    only (the empty flag among them) and the flag "0"; a flag such as
    " 0" or "0 " passes it. *)
Theorem waiver_blocks_iff (w : string) :
  (waiver_blocks w = true <-> all_space w = true \/ w = "0")
  /\ waiver_blocks " 0" = false /\ waiver_blocks "0 " = false.
Proof.
  split; [|split; reflexivity].
  unfold waiver_blocks. rewrite orb_true_iff, !String.eqb_eq.
  now rewrite strip_empty.
Qed.

(** X9: in a database the program has produced from a fresh file, the
    roadblock stops a student of the table exactly when the flag is the
    empty string or "0": the import has stripped every flag. *)
Theorem reachable_gate_blocks_unsigned (db : database) (r : students.row) :
  reachable db -> In r (students_table db) ->
  (waiver_blocks (students.waiver_signed r) = true
   <-> students.waiver_signed r = "" \/ students.waiver_signed r = "0").
Proof.
  intros Hreach Hin.
  destruct (reachable_well_formed db Hreach) as [_ [_ Hf]].
  unfold flags_stripped in Hf. rewrite Forall_forall in Hf.
  specialize (Hf r Hin). unfold waiver_blocks.
  now rewrite orb_true_iff, !String.eqb_eq, Hf.
Qed.

Lemma reachable_gate_blocks_unsigned_witness :
  waiver_blocks (students.waiver_signed carol) = true
  <-> students.waiver_signed carol = "" \/ students.waiver_signed carol = "0".
Proof.
  apply (reachable_gate_blocks_unsigned imported_db carol).
  - apply (reach_import (initialize_database None) (Some roster_csv));
      [apply reach_fresh | reflexivity].
  - simpl. tauto.
Defined.

(** ** Invariants of a run *)

Section RunFacts.

(** One request, on the whole database: nothing, a close by id, or an
    insert for a student of the table. *)
Lemma checkin_effect student_id now db :
  let time := isoformat_seconds now in
  fst (checkin student_id now db) = db
  \/ (exists sid i,
        student_id = Some sid
        /\ In sid (student_ids (students_table db))
        /\ Sql.select_active_session (Some sid) (logins_table db) = Some i
        /\ fst (checkin student_id now db)
           = mk_database (students_table db)
               (Sql.update_logout time i (logins_table db)) (logins_seq db))
  \/ (exists sid,
        student_id = Some sid
        /\ In sid (student_ids (students_table db))
        /\ Sql.select_active_session (Some sid) (logins_table db) = None
        /\ fst (checkin student_id now db)
           = mk_database (students_table db)
               (logins_table db
                ++ [logins.mk_row
                      (Sql.next_id (logins_table db) (logins_seq db))
                      sid time None])
               (Sql.next_id (logins_table db) (logins_seq db))).
Proof.
  unfold checkin.
  destruct (Sql.select_student _ _) as [[[f l] w]|] eqn:E; [|now left].
  apply select_student_Some in E. destruct E as [r [Hin [-> _]]].
  assert (Hsid : In (students.student_id r) (student_ids (students_table db)))
    by now apply in_map.
  destruct (waiver_blocks w); [now left|].
  destruct (Sql.select_active_session _ _) as [i|] eqn:Ea; right.
  - left. exists (students.student_id r), i. auto.
  - right. exists (students.student_id r). auto.
Qed.

Lemma import_csv_frame file db db' :
  import_csv file db = Some db' ->
  logins_table db' = logins_table db /\ logins_seq db' = logins_seq db
  /\ incl (student_ids (students_table db)) (student_ids (students_table db')).
Proof.
  unfold import_csv. destruct file as [[|header rows]|]; try discriminate.
  destruct (import_rows rows (students_table db)) as [t1|] eqn:E;
    [|discriminate].
  intros [= <-]. simpl. repeat split.
  destruct (import_rows_prefix _ _ _ E) as [added [-> _]].
  unfold student_ids. rewrite map_app. apply incl_appl, incl_refl.
Qed.

Lemma StronglySorted_snoc (l : list Z) (i : Z) :
  StronglySorted Z.lt l -> Forall (fun x => (x < i)%Z) l ->
  StronglySorted Z.lt (l ++ [i]).
Proof.
  induction 1 as [|x l Hs IH Hx]; simpl; intros Hlt.
  - constructor; constructor.
  - inversion Hlt as [|? ? Hxi Hl]; subst.
    constructor; [now apply IH|].
    apply Forall_app. split; [exact Hx|]. constructor; [exact Hxi|constructor].
Qed.

Lemma next_id_above_seq t seq : (seq < Sql.next_id t seq)%Z.
Proof. unfold Sql.next_id. destruct (Sql.largest _); lia. Qed.

Lemma reachable_ids db :
  reachable db -> ids_increasing db /\ (0 <= logins_seq db)%Z.
Proof.
  unfold ids_increasing.
  induction 1 as [|db file db' _ IH Himp|db sid now _ IH].
  - simpl. repeat split; try constructor. lia.
  - destruct (import_csv_frame _ _ _ Himp) as [-> [-> _]]. exact IH.
  - destruct IH as [[Hs Hb] H0].
    destruct (checkin_effect sid now db)
      as [-> | [(s0 & i & _ & _ & _ & ->) | (s0 & _ & _ & _ & ->)]]; simpl.
    + auto.
    + rewrite update_logout_ids. auto.
    + pose proof (next_id_above_seq (logins_table db) (logins_seq db)) as Hn.
      rewrite map_app. simpl. repeat split.
      * apply StronglySorted_snoc; [exact Hs|].
        apply Forall_forall. intros x Hx. apply in_map_iff in Hx.
        destruct Hx as [l [<- Hl]]. now apply next_id_fresh.
      * apply Forall_app. split.
        -- eapply Forall_impl; [|exact Hb]. simpl. intros x Hx. lia.
        -- constructor; [lia | constructor].
      * lia.
Qed.

Lemma reachable_references db :
  reachable db -> logins_reference_students db.
Proof.
  unfold logins_reference_students.
  induction 1 as [|db file db' _ IH Himp|db sid now _ IH]; intros l Hl.
  - destruct Hl.
  - destruct (import_csv_frame _ _ _ Himp) as [Ht [_ Hincl]].
    rewrite Ht in Hl. apply Hincl. now apply IH.
  - destruct (checkin_effect sid now db)
      as [H | [(s0 & i & _ & Hs0 & _ & H) | (s0 & _ & Hs0 & _ & H)]];
      rewrite H in *; simpl in *.
    + now apply IH.
    + unfold Sql.update_logout in Hl. apply in_map_iff in Hl.
      destruct Hl as [l0 [<- Hl0]].
      destruct (Z.eqb (logins.id l0) i); simpl; now apply IH.
    + apply in_app_or in Hl. destruct Hl as [Hl|[<-|[]]]; [now apply IH|].
      exact Hs0.
Qed.

Lemma serve_reachable requests : forall db,
  reachable db -> reachable (fst (serve requests db)).
Proof.
  induction requests as [|[sid now] rest IH]; intros db H; [exact H|].
  rewrite serve_cons. apply IH. now apply reach_checkin.
Qed.

Lemma serve_replies requests : forall db,
  List.length (snd (serve requests db)) = List.length requests.
Proof.
  induction requests as [|[sid now] rest IH]; intros db; simpl; [reflexivity|].
  destruct (checkin sid now db) as [db1 rep].
  specialize (IH db1). destruct (serve rest db1) as [db2 reps].
  simpl in *. now rewrite IH.
Qed.

End RunFacts.

(** X10: in every database the program produces from a fresh file, the
    two primary keys hold, the ids of the login records are positive and
    grow strictly along the table (a later session has a larger id), and
    none exceeds the AUTOINCREMENT counter. *)
Theorem reachable_keys_and_ids (db : database) :
  reachable db -> students_key db /\ logins_key db /\ ids_increasing db.
Proof.
  intros H. destruct (reachable_well_formed db H) as [Hs [Hl _]].
  destruct (reachable_ids db H) as [Hi _]. auto.
Qed.

Lemma reachable_keys_and_ids_witness :
  let db := fst (serve [(Some "12345", morning); (Some "8", morning);
                        (Some "12345", noon); (Some "12345", noon)]
                   imported_db) in
  students_key db /\ logins_key db /\ ids_increasing db.
Proof.
  apply (reachable_keys_and_ids
           (fst (serve [(Some "12345", morning); (Some "8", morning);
                        (Some "12345", noon); (Some "12345", noon)]
                   imported_db))).
  apply serve_reachable.
  apply (reach_import (initialize_database None) (Some roster_csv));
    [apply reach_fresh | reflexivity].
Defined.

(** X11: the handler keeps the foreign key that SQLite is not asked to
    enforce: in every database the program produces from a fresh file,
    each login record carries the identifier of a student of the
    students table. *)
Theorem reachable_logins_reference_students (db : database) :
  reachable db -> logins_reference_students db.
Proof. exact (reachable_references db). Qed.

Lemma reachable_logins_reference_students_witness :
  logins_reference_students
    (fst (serve [(Some "12345", morning); (Some "404", noon)] imported_db)).
Proof.
  apply (reachable_logins_reference_students
           (fst (serve [(Some "12345", morning); (Some "404", noon)]
                   imported_db))).
  apply serve_reachable.
  apply (reach_import (initialize_database None) (Some roster_csv));
    [apply reach_fresh | reflexivity].
Defined.

(** X12: a whole run.  When the process starts on a fresh file, or on
    the file an earlier run has left, and the import succeeds, then after
    any requests served one at a time there is one reply per request and
    the database has both primary keys, at most one open session per
    student and no login record of an unknown student. *)
Theorem main_keeps_invariants
  (db_file : option database) (csv_file : option (list csv_row))
  (requests : list (option string * datetime))
  (db : database) (replies : list reply) :
  reachable (initialize_database db_file) ->
  main db_file csv_file requests = Some (db, replies) ->
  List.length replies = List.length requests
  /\ students_key db /\ logins_key db
  /\ at_most_one_open db /\ logins_reference_students db.
Proof.
  intros Hinit Hmain. unfold main in Hmain.
  destruct (import_csv csv_file (initialize_database db_file))
    as [db0|] eqn:E; [|discriminate].
  injection Hmain as Hserve.
  assert (Hreach : reachable db).
  { change db with (fst (db, replies)). rewrite <- Hserve.
    apply serve_reachable. exact (reach_import _ _ _ Hinit E). }
  split.
  - change replies with (snd (db, replies)). rewrite <- Hserve.
    apply serve_replies.
  - destruct (reachable_well_formed db Hreach) as [Hs [Hl _]].
    repeat split; auto.
    + now apply reachable_at_most_one_open.
    + now apply reachable_references.
Qed.

Lemma main_keeps_invariants_witness :
  exists db replies,
    main None (Some roster_csv)
      [(Some "12345", morning); (None, noon); (Some "12345", noon)]
    = Some (db, replies)
    /\ List.length replies = 3%nat
    /\ students_key db /\ logins_key db
    /\ at_most_one_open db /\ logins_reference_students db.
Proof.
  eexists. eexists. split; [reflexivity|].
  apply (main_keeps_invariants None (Some roster_csv)
           [(Some "12345", morning); (None, noon); (Some "12345", noon)]).
  - apply reach_fresh.
  - reflexivity.
Defined.

(** ** Sessions over several requests *)

Section SessionFacts.

Lemma largest_snoc_max (ids : list Z) (i : Z) :
  (forall x, In x ids -> (x < i)%Z) -> Sql.largest (ids ++ [i]) = Some i.
Proof.
  induction ids as [|x ids IH]; simpl; intros H; [reflexivity|].
  rewrite IH by auto. f_equal. specialize (H x (or_introl eq_refl)). lia.
Qed.

(** The session just inserted is the one the SELECT of the handler (and
    the UPDATE of [record_logout]) picks for its student. *)
Lemma select_active_session_new sid time t i :
  (forall l, In l t -> (logins.id l < i)%Z) ->
  Sql.select_active_session (Some sid)
    (t ++ [logins.mk_row i sid time None]) = Some i.
Proof.
  intros Hfresh. unfold Sql.select_active_session.
  rewrite filter_app, map_app. simpl. unfold Sql.open_for at 2. simpl.
  rewrite String.eqb_refl. simpl. apply largest_snoc_max.
  intros x Hx. apply in_map_iff in Hx. destruct Hx as [l [<- Hl]].
  apply filter_In in Hl. apply Hfresh. tauto.
Qed.

Lemma update_logout_new time i sid time0 t :
  (forall l, In l t -> (logins.id l < i)%Z) ->
  Sql.update_logout time i (t ++ [logins.mk_row i sid time0 None])
  = t ++ [logins.mk_row i sid time0 (Some time)].
Proof.
  intros Hfresh. unfold Sql.update_logout. rewrite map_app. simpl.
  rewrite Z.eqb_refl. f_equal. apply update_logout_other.
  intros l Hl. specialize (Hfresh l Hl). lia.
Qed.

Lemma sessions_of_other sid sid' i time out t :
  sid <> sid' ->
  sessions_of sid' (t ++ [logins.mk_row i sid time out]) = sessions_of sid' t.
Proof.
  intros Hne. unfold sessions_of. rewrite filter_app. simpl.
  apply String.eqb_neq in Hne. rewrite Hne. apply app_nil_r.
Qed.

End SessionFacts.

(** X13: check-in then check-out.  For a student of the table who passes
    the roadblock and has no open session, two consecutive /checkin
    requests leave the database with exactly one more login record, the
    last of the table, with a fresh id, the time of the first request as
    login time and the time of the second as logout time; the rows that
    were there are unchanged. *)
Theorem checkin_then_checkout
  (db : database) (r : students.row) (t1 t2 : datetime) :
  students_key db -> In r (students_table db) ->
  waiver_blocks (students.waiver_signed r) = false ->
  open_sessions (students.student_id r) (logins_table db) = [] ->
  exists i,
    (forall l, In l (logins_table db) -> (logins.id l < i)%Z)
    /\ fst (serve [(Some (students.student_id r), t1);
                   (Some (students.student_id r), t2)] db)
       = mk_database (students_table db)
           (logins_table db
            ++ [logins.mk_row i (students.student_id r)
                  (isoformat_seconds t1) (Some (isoformat_seconds t2))])
           i.
Proof.
  intros Hk Hin Hw Hopen.
  exists (Sql.next_id (logins_table db) (logins_seq db)).
  assert (Hfresh : forall l, In l (logins_table db) ->
            (logins.id l < Sql.next_id (logins_table db) (logins_seq db))%Z)
    by (intros l; apply next_id_fresh).
  split; [exact Hfresh|].
  rewrite !serve_cons. simpl serve. simpl fst at 1.
  rewrite (checkin_found db r t1 Hk Hin), Hw.
  rewrite (proj2 (select_active_session_None _ _) Hopen). simpl fst.
  rewrite checkin_found; [|exact Hk|exact Hin]. rewrite Hw. simpl logins_table.
  rewrite select_active_session_new by exact Hfresh. simpl.
  now rewrite update_logout_new.
Qed.

Lemma checkin_then_checkout_witness :
  exists i,
    (forall l, In l (logins_table busy_db) -> (logins.id l < i)%Z)
    /\ fst (serve [(Some "8", morning); (Some "8", noon)]
              (mk_database [alice; students.mk_row "8" "Carol" "Diaz" "1"]
                 (logins_table busy_db) 2))
       = mk_database [alice; students.mk_row "8" "Carol" "Diaz" "1"]
           (logins_table busy_db
            ++ [logins.mk_row i "8" (isoformat_seconds morning)
                  (Some (isoformat_seconds noon))])
           i.
Proof.
  apply (checkin_then_checkout
           (mk_database [alice; students.mk_row "8" "Carol" "Diaz" "1"]
              (logins_table busy_db) 2)
           (students.mk_row "8" "Carol" "Diaz" "1") morning noon).
  - unfold students_key. simpl. key_tac.
  - simpl. tauto.
  - reflexivity.
  - reflexivity.
Defined.

(** X14: a request of one student leaves the sessions of every other
    student as they were, in a database whose login ids are unique. *)
Theorem checkin_leaves_other_students
  (db : database) (sid sid' : string) (now : datetime) :
  logins_key db -> sid <> sid' ->
  sessions_of sid' (logins_table (fst (checkin (Some sid) now db)))
  = sessions_of sid' (logins_table db).
Proof.
  intros Hl Hne.
  destruct (checkin_logins (Some sid) now db)
    as [-> | [(s0 & i & Hp & Ha & ->) | (s0 & Hp & _ & ->)]].
  - reflexivity.
  - injection Hp as <-. apply select_active_session_Some in Ha.
    destruct Ha as [[s [Hs [Ho Hi]]] _]. subst i.
    destruct (in_split _ _ Hs) as [before [after Hsplit]].
    unfold logins_key in Hl. rewrite Hsplit in Hl |- *.
    rewrite update_logout_split by exact Hl.
    apply open_for_spec in Ho. destruct Ho as [[= Hsid] _].
    unfold sessions_of. rewrite !filter_app. simpl. rewrite <- Hsid.
    apply String.eqb_neq in Hne. now rewrite Hne.
  - injection Hp as <-. now apply sessions_of_other.
Qed.

Lemma checkin_leaves_other_students_witness :
  sessions_of "8" (logins_table (fst (checkin (Some "12345") noon busy_db)))
  = sessions_of "8" (logins_table busy_db).
Proof.
  apply (checkin_leaves_other_students busy_db "12345" "8" noon).
  - unfold logins_key. simpl. key_tac.
  - discriminate.
Defined.

(** X15: the history is kept.  Through a /checkin request no login
    record is deleted or reordered and none changes its id, student or
    login time; and, the login ids being unique, a record that is closed
    keeps its logout time: it is found unchanged after the request. *)
Theorem checkin_keeps_history
  (db : database) (student_id : option string) (now : datetime) :
  logins_key db ->
  (exists added,
     map session_core (logins_table (fst (checkin student_id now db)))
     = map session_core (logins_table db) ++ added)
  /\ (forall l, In l (logins_table db) -> logins.logout_time l <> None ->
                In l (logins_table (fst (checkin student_id now db)))).
Proof.
  intros Hl.
  destruct (checkin_logins student_id now db)
    as [-> | [(s0 & i & Hp & Ha & ->) | (s0 & Hp & _ & ->)]].
  - split; [exists []; now rewrite app_nil_r | auto].
  - split.
    + exists []. rewrite app_nil_r. unfold Sql.update_logout.
      rewrite map_map. apply map_ext. intros l.
      now destruct (Z.eqb (logins.id l) i).
    + intros l Hin Hclosed. apply select_active_session_Some in Ha.
      destruct Ha as [[s [Hs [Ho Hi]]] _]. subst i.
      destruct (in_split _ _ Hs) as [before [after Hsplit]].
      unfold logins_key in Hl. rewrite Hsplit in Hl, Hin |- *.
      rewrite update_logout_split by exact Hl.
      apply open_for_spec in Ho. destruct Ho as [_ Hnull].
      apply in_app_or in Hin. apply in_or_app.
      destruct Hin as [Hin|[<-|Hin]]; [now left | congruence |].
      right. now right.
  - split.
    + exists [(Sql.next_id (logins_table db) (logins_seq db), s0,
               isoformat_seconds now)].
      now rewrite map_app.
    + intros l Hin _. apply in_or_app. now left.
Qed.

Lemma checkin_keeps_history_witness :
  (exists added,
     map session_core (logins_table (fst (checkin (Some "12345") noon busy_db)))
     = map session_core (logins_table busy_db) ++ added)
  /\ (forall l, In l (logins_table busy_db) -> logins.logout_time l <> None ->
                In l (logins_table (fst (checkin (Some "12345") noon busy_db)))).
Proof.
  apply (checkin_keeps_history busy_db (Some "12345") noon).
  unfold logins_key. simpl. key_tac.
Defined.

(** ** The two helpers, [record_login] and [record_logout] *)

(** X16: the helpers write what the handler writes inline.  For a
    student of the table who passes the roadblock, [record_login] gives
    the database and the time of the check-in branch of /checkin when the
    student has no open session; when the student has one, and the login
    ids are unique, [record_logout] gives those of the check-out
    branch. *)
Theorem helpers_agree_with_checkin
  (db : database) (r : students.row) (now : datetime) :
  students_key db -> logins_key db -> In r (students_table db) ->
  waiver_blocks (students.waiver_signed r) = false ->
  let sid := students.student_id r in
  (open_sessions sid (logins_table db) = [] ->
   record_login (Some sid) now db
   = Some (fst (checkin (Some sid) now db), isoformat_seconds now))
  /\ (open_sessions sid (logins_table db) <> [] ->
      record_logout (Some sid) now db
      = (fst (checkin (Some sid) now db), isoformat_seconds now)).
Proof.
  intros Hk Hl Hin Hw sid. unfold sid.
  rewrite (checkin_found _ _ _ Hk Hin), Hw. split; intros Hopen.
  - rewrite (proj2 (select_active_session_None _ _) Hopen). reflexivity.
  - unfold record_logout. rewrite update_latest_open_by_id by exact Hl.
    destruct (Sql.select_active_session _ _) as [i|] eqn:E; [reflexivity|].
    apply select_active_session_None in E. contradiction.
Qed.

Lemma helpers_agree_with_checkin_witness :
  (open_sessions "12345" (logins_table busy_db) = [] ->
   record_login (Some "12345") noon busy_db
   = Some (fst (checkin (Some "12345") noon busy_db), isoformat_seconds noon))
  /\ (open_sessions "12345" (logins_table busy_db) <> [] ->
      record_logout (Some "12345") noon busy_db
      = (fst (checkin (Some "12345") noon busy_db), isoformat_seconds noon)).
Proof.
  apply (helpers_agree_with_checkin busy_db alice noon).
  - unfold students_key. simpl. key_tac.
  - unfold logins_key. simpl. key_tac.
  - simpl. tauto.
  - reflexivity.
Defined.

(** X17: [record_login] checks nothing.  Given an identifier, it always
    succeeds and adds one open session for it, to the end of the table,
    whether or not a student has that identifier and a signed waiver; so
    when the identifier already has an open session, the database it
    returns has two and breaks the one-open-session invariant.  Given
    [None], it raises on the NOT NULL constraint and writes nothing. *)
Theorem record_login_unconditional
  (sid : string) (now : datetime) (db : database) :
  record_login None now db = None
  /\ exists db',
       record_login (Some sid) now db = Some (db', isoformat_seconds now)
       /\ students_table db' = students_table db
       /\ List.length (open_sessions sid (logins_table db'))
          = S (List.length (open_sessions sid (logins_table db)))
       /\ (open_sessions sid (logins_table db) <> [] ->
           ~ at_most_one_open db').
Proof.
  split; [reflexivity|]. eexists. split; [reflexivity|]. simpl.
  split; [reflexivity|].
  assert (Hlen : List.length
            (open_sessions sid
               (logins_table db
                ++ [logins.mk_row (Sql.next_id (logins_table db) (logins_seq db))
                      sid (isoformat_seconds now) None]))
          = S (List.length (open_sessions sid (logins_table db)))).
  { rewrite open_sessions_insert, length_app, String.eqb_refl. simpl. lia. }
  split; [exact Hlen|].
  intros Hopen Hinv. specialize (Hinv sid). simpl in Hinv.
  rewrite Hlen in Hinv.
  destruct (open_sessions sid (logins_table db)); [congruence|].
  simpl in Hinv. lia.
Qed.

(** X18: [record_login] followed by [record_logout] for the same
    identifier closes the session just opened, whatever older sessions
    the identifier has left open: the table gains one record, with the
    first time as login time and the second as logout time, and the rows
    that were there are unchanged. *)
Theorem record_login_then_logout
  (sid : string) (t1 t2 : datetime) (db : database) :
  exists i db1,
    record_login (Some sid) t1 db = Some (db1, isoformat_seconds t1)
    /\ (forall l, In l (logins_table db) -> (logins.id l < i)%Z)
    /\ record_logout (Some sid) t2 db1
       = (mk_database (students_table db)
            (logins_table db
             ++ [logins.mk_row i sid (isoformat_seconds t1)
                   (Some (isoformat_seconds t2))])
            i,
          isoformat_seconds t2).
Proof.
  exists (Sql.next_id (logins_table db) (logins_seq db)). eexists.
  split; [reflexivity|].
  assert (Hfresh : forall l, In l (logins_table db) ->
            (logins.id l < Sql.next_id (logins_table db) (logins_seq db))%Z)
    by (intros l; apply next_id_fresh).
  split; [exact Hfresh|].
  unfold record_logout, update_latest_open. simpl.
  rewrite select_active_session_new by exact Hfresh.
  rewrite update_first_split; [reflexivity| |].
  - intros l Hl. apply andb_false_iff. right. apply Z.eqb_neq.
    specialize (Hfresh l Hl). lia.
  - unfold Sql.open_for. simpl. now rewrite String.eqb_refl, Z.eqb_refl.
Qed.

(** X19: [record_logout] for an identifier without an open session (an
    unknown identifier, or [None]) changes nothing, and still returns the
    current time, as it does after closing a session. *)
Theorem record_logout_without_session
  (student_id : option string) (now : datetime) (db : database) :
  (forall l, In l (logins_table db) ->
             student_id = Some (logins.student_id l) ->
             logins.logout_time l <> None) ->
  record_logout student_id now db = (db, isoformat_seconds now).
Proof.
  intros H. unfold record_logout, update_latest_open.
  assert (E : Sql.select_active_session student_id (logins_table db) = None).
  { apply select_active_session_None.
    destruct (filter _ (logins_table db)) as [|l rest] eqn:F; [reflexivity|].
    assert (Hl : In l (filter (Sql.open_for student_id) (logins_table db)))
      by (rewrite F; now left).
    apply filter_In in Hl. destruct Hl as [Hin Ho].
    apply open_for_spec in Ho. destruct Ho as [Hp Hnull].
    elim (H l Hin Hp Hnull). }
  rewrite E. now destruct db.
Qed.

Lemma record_logout_without_session_witness :
  record_logout (Some "8") noon busy_db = (busy_db, isoformat_seconds noon)
  /\ record_logout None noon busy_db = (busy_db, isoformat_seconds noon).
Proof.
  split.
  - apply (record_logout_without_session (Some "8") noon busy_db).
    simpl. intros l [<-|[<-|[]]]; simpl; discriminate.
  - apply (record_logout_without_session None noon busy_db).
    intros l _. discriminate.
Defined.

(** ** More on the timestamps *)

Section TimestampFacts.

Lemma digit_inj a b : digit a = digit b -> (a mod 10 = b mod 10)%nat.
Proof.
  unfold digit. intros H. apply (f_equal nat_of_ascii) in H.
  pose proof (Nat.mod_upper_bound a 10) as Ha.
  pose proof (Nat.mod_upper_bound b 10) as Hb.
  rewrite !nat_ascii_embedding in H by lia. lia.
Qed.

Lemma pad2_inj a b :
  (a < 100)%nat -> (b < 100)%nat -> pad2 a = pad2 b -> a = b.
Proof.
  unfold pad2. intros Ha Hb H.
  remember (a / 10)%nat as qa. remember (b / 10)%nat as qb.
  injection H as H1 H0. subst qa qb.
  apply digit_inj in H1, H0.
  pose proof (Nat.div_mod_eq a 10). pose proof (Nat.div_mod_eq b 10).
  assert (a / 10 < 10)%nat by (apply Nat.Div0.div_lt_upper_bound; lia).
  assert (b / 10 < 10)%nat by (apply Nat.Div0.div_lt_upper_bound; lia).
  rewrite !Nat.mod_small in H1 by assumption. lia.
Qed.

Lemma pad4_inj a b :
  (a < 100 * 100)%nat -> (b < 100 * 100)%nat -> pad4 a = pad4 b -> a = b.
Proof.
  unfold pad4. intros Ha Hb H.
  remember (a / 1000)%nat as a3. remember (b / 1000)%nat as b3.
  remember (a / 100)%nat as a2. remember (b / 100)%nat as b2.
  remember (a / 10)%nat as a1. remember (b / 10)%nat as b1.
  injection H as H3 H2 H1 H0. subst a3 b3 a2 b2 a1 b1.
  apply digit_inj in H3, H2, H1, H0.
  assert (Hdec : forall n, (n < 100 * 100)%nat ->
            n = ((n / 1000) mod 10 * 1000 + (n / 100) mod 10 * 100
                 + (n / 10) mod 10 * 10 + n mod 10)%nat).
  { intros n Hn.
    pose proof (Nat.div_mod_eq n 10) as E0.
    pose proof (Nat.div_mod_eq (n / 10) 10) as E1.
    pose proof (Nat.div_mod_eq (n / 100) 10) as E2.
    replace (n / 10 / 10)%nat with (n / 100)%nat in E1
      by (now rewrite Nat.Div0.div_div).
    replace (n / 100 / 10)%nat with (n / 1000)%nat in E2
      by (now rewrite Nat.Div0.div_div).
    assert (n / 1000 < 10)%nat
      by (apply Nat.Div0.div_lt_upper_bound; simpl in Hn; lia).
    rewrite (Nat.mod_small (n / 1000)) by assumption. lia. }
  rewrite (Hdec a Ha), (Hdec b Hb). congruence.
Qed.

End TimestampFacts.

(** X20: the timestamp the handler stores and shows has nineteen
    characters, and for datetimes with fields in their ranges it
    determines the time to the second: two instants with the same
    timestamp have the same year, month, day, hour, minute and second
    (the microseconds are not kept). *)
Theorem isoformat_seconds_faithful (d1 d2 : datetime) :
  in_range d1 -> in_range d2 ->
  isoformat_seconds d1 = isoformat_seconds d2 ->
  String.length (isoformat_seconds d1) = 19%nat
  /\ year d1 = year d2 /\ month d1 = month d2 /\ day d1 = day d2
  /\ hour d1 = hour d2 /\ minute d1 = minute d2 /\ second d1 = second d2.
Proof.
  intros (Hy1 & Hm1 & Hd1 & Hh1 & Hi1 & Hs1) (Hy2 & Hm2 & Hd2 & Hh2 & Hi2 & Hs2) H.
  split; [reflexivity|].
  unfold isoformat_seconds in H.
  assert (Hsplit : forall a b c d e f a' b' c' d' e' f',
            (pad4 a ++ "-" ++ pad2 b ++ "-" ++ pad2 c ++ "T"
             ++ pad2 d ++ ":" ++ pad2 e ++ ":" ++ pad2 f
             = pad4 a' ++ "-" ++ pad2 b' ++ "-" ++ pad2 c' ++ "T"
               ++ pad2 d' ++ ":" ++ pad2 e' ++ ":" ++ pad2 f')%string ->
            pad4 a = pad4 a' /\ pad2 b = pad2 b' /\ pad2 c = pad2 c'
            /\ pad2 d = pad2 d' /\ pad2 e = pad2 e' /\ pad2 f = pad2 f').
  { intros a b c d e f a' b' c' d' e' f' E. unfold pad4, pad2 in *.
    simpl in *. injection E. intros. repeat split; congruence. }
  apply Hsplit in H. destruct H as (Ey & Em & Ed & Eh & Ei & Es).
  repeat split; [now apply pad4_inj | now apply pad2_inj ..].
Qed.

Lemma isoformat_seconds_faithful_witness :
  String.length (isoformat_seconds morning) = 19%nat
  /\ year morning = 2026%nat /\ month morning = 1%nat /\ day morning = 22%nat
  /\ hour morning = 14%nat /\ minute morning = 39%nat
  /\ second morning = 36%nat.
Proof.
  apply (isoformat_seconds_faithful morning
           (mk_datetime 2026 1 22 14 39 36 0)).
  - unfold in_range. simpl. lia.
  - unfold in_range. simpl. lia.
  - reflexivity.
Defined.
